(** * goat-monitor: the RPC polling and aggregation core

    A shallow embedding of [rpc/client.go], [collector/collector.go] and
    [main.go] (the [/health] handler), and the properties of the hex
    decoder, the [eth_syncing] decoder, the JSON-RPC call and the two
    aggregators that the specification states.

    Conventions.
    - A Go [string] is a sequence of bytes: Rocq's [string].
    - A [uint64] is a [Z] in [0, 2^64); an [int] is a [Z].
    - A Go result pair [(v, err)] is a Rocq pair whose second component is
      an [option error]; [None] is Go's [nil] error.
    - [fmt.Errorf] values are kept structured: one constructor per format
      string of the source, carrying the format's arguments. *)

From Stdlib Require Import ZArith Lia Bool List Ascii String.
From stdpp Require Import base option strings gmap.

Import ListNotations.
Local Open Scope string_scope.
Local Open Scope Z_scope.

(** ** Unsigned 64-bit integers *)

Definition uint64_modulus : Z := 2 ^ 64.
Definition MaxUint64 : Z := uint64_modulus - 1.
Definition is_uint64 (n : Z) : Prop := 0 <= n <= MaxUint64.

(** ** [math/big]: the part of [big.Int] that [parseHexUint64] uses *)

Module big.

(** [big.Int]: a sign and a magnitude. *)
Record Int := mkInt { neg : bool; abs : Z }.

Definition MaxBase : Z := 62.
Definition maxBaseSmall : Z := 36.

Definition byte_of (ch : ascii) : Z := Z.of_N (N_of_ascii ch).

(** The digit value [d1] that [nat.scan] gives a byte in base [b]. *)
Definition digitVal (b : Z) (ch : ascii) : Z :=
  let c := byte_of ch in
  if (48 <=? c) && (c <=? 57) then c - 48
  else if (97 <=? c) && (c <=? 122) then c - 97 + 10
  else if (65 <=? c) && (c <=? 90) then
    if b <=? maxBaseSmall then c - 65 + 10 else c - 65 + maxBaseSmall
  else MaxBase + 1.

(** The loop of [nat.scan] for a fixed base [2 <= b <= MaxBase] (no
    prefix, no separators, no fraction): digits are consumed while their
    value is below the base; the result is the value read, the number of
    digits and the unread rest. *)
Fixpoint scanDigits (b : Z) (s : string) (z : Z) (count : nat)
  : Z * nat * string :=
  match s with
  | EmptyString => (z, count, EmptyString)
  | String ch rest =>
      let d1 := digitVal b ch in
      if b <=? d1 then (z, count, s)
      else scanDigits b rest (z * b + d1) (S count)
  end.

(** [scanSign]: an optional ['+'] or ['-']; reading from an empty input
    is an error. *)
Definition scanSign (s : string) : option (bool * string) :=
  match s with
  | EmptyString => None
  | String ch rest =>
      if Ascii.eqb ch "-" then Some (true, rest)
      else if Ascii.eqb ch "+" then Some (false, rest)
      else Some (false, s)
  end.

(** [Int.SetString(s, base)] for [2 <= base <= MaxBase]: a sign, at
    least one digit, and nothing left over. [None] is [ok = false]. *)
Definition SetString (s : string) (base : Z) : option Int :=
  match scanSign s with
  | None => None
  | Some (sg, rest) =>
      match scanDigits base rest 0 0 with
      | (_, O, _) => None
      | (z, S _, EmptyString) => Some (mkInt ((0 <? z) && sg) z)
      | (_, S _, String _ _) => None
      end
  end.

(** [Int.Uint64()]: [low64(x.abs)], the low 64 bits of the
    magnitude. *)
Definition Uint64 (x : Int) : Z := abs x mod uint64_modulus.

End big.

(** ** [encoding/json]

    The decoder is modelled on the value tree of a JSON text. A number
    keeps what matters to a Go [int]: whether its literal is an integer
    literal, and then its value. *)

Inductive number : Type :=
| NInt (z : Z)              (* an integer literal: -?digits *)
| NFloat (literal : string). (* a literal with a fraction or an exponent *)

#[local] Unset Elimination Schemes.
Inductive json : Type :=
| JNull
| JBool (b : bool)
| JNumber (n : number)
| JString (s : string)
| JArray (elems : list json)
| JObject (members : list (string * json)).
#[local] Set Elimination Schemes.

(** [json.RawMessage]: the bytes of one JSON value, kept as that value;
    [None] is the nil slice (no bytes at all). *)
Definition RawMessage : Type := option json.

(** The body read by [io.ReadAll], as [encoding/json] sees it: bytes that
    are not a JSON text, or a JSON text, kept as its value tree. *)
Inductive body : Type :=
| NotJSON (raw : string)
| JSONText (j : json).

Definition tree (b : body) : option json :=
  match b with
  | NotJSON _ => None
  | JSONText j => Some j
  end.

(** ** Errors

    One constructor per [fmt.Errorf] of [rpc/client.go]. The causes wrapped
    with [%w] come from [net/http], [io] and [encoding/json]; the first two
    are kept as the text the transport reports, the last as a tag. *)

Inductive json_error : Type :=
| SyntaxError            (* the input is empty or is not a JSON text *)
| UnmarshalTypeError.    (* a JSON value does not fit the Go type *)

Inductive error : Type :=
| ErrRequest (endpoint cause : string)      (* "RPC request to %s: %w" *)
| ErrReadBody (cause : string)              (* "read response body: %w" *)
| ErrHTTPStatus (code : Z) (respBody : body) (* "RPC returned HTTP %d: %s" *)
| ErrUnmarshalResponse (cause : json_error) (* "unmarshal response: %w" *)
| ErrRPC (code : Z) (message : string)      (* "RPC error %d: %s" *)
| ErrUnmarshalBlockNumber (cause : json_error) (* "unmarshal block number: %w" *)
| ErrUnmarshalChainID (cause : json_error)  (* "unmarshal chain id: %w" *)
| ErrUnmarshalSyncProgress (cause : json_error) (* "unmarshal sync progress: %w" *)
| ErrInvalidHex (hex : string).             (* "invalid hex value: %s" *)

(** The error taxonomy of the specification (section 7). *)
Inductive error_class : Type :=
| TransportError | ProtocolError | RPCError | DecodeError.

Definition classify (e : error) : error_class :=
  match e with
  | ErrRequest _ _ | ErrReadBody _ | ErrHTTPStatus _ _ => TransportError
  | ErrUnmarshalResponse _ => ProtocolError
  | ErrRPC _ _ => RPCError
  | ErrUnmarshalBlockNumber _ | ErrUnmarshalChainID _
  | ErrUnmarshalSyncProgress _ | ErrInvalidHex _ => DecodeError
  end.

(** ** The hex decoder *)

(** [stripHexPrefix] removes the "0x" or "0X" prefix from a hex string. *)
Definition stripHexPrefix (s : string) : string :=
  if (2 <=? String.length s)%nat
     && (String.eqb (substring 0 2 s) "0x" || String.eqb (substring 0 2 s) "0X")
  then substring 2 (String.length s - 2)%nat s
  else s.

(** [parseHexUint64] converts a hex string (0x-prefixed) to uint64. *)
Definition parseHexUint64 (hex : string) : Z * option error :=
  match big.SetString (stripHexPrefix hex) 16 with
  | None => (0, Some (ErrInvalidHex hex))
  | Some n => (big.Uint64 n, None)
  end.

(** ** [encoding/json]: decoding into the Go types of the program *)

(** A Go result [(v, err)] of the decoder: [inl v] when [err == nil]. *)
Definition decoded (A : Type) : Type := A + json_error.

(** A JSON value stored into a Go [string]: a JSON string is copied, [null]
    leaves the variable as it is, anything else is a type error. *)
Definition store_string (old : string) (j : json) : decoded string :=
  match j with
  | JString s => inl s
  | JNull => inl old
  | _ => inr UnmarshalTypeError
  end.

(** Into a Go [bool]. *)
Definition store_bool (old : bool) (j : json) : decoded bool :=
  match j with
  | JBool b => inl b
  | JNull => inl old
  | _ => inr UnmarshalTypeError
  end.

Definition MinInt : Z := - 2 ^ 63.
Definition MaxInt : Z := 2 ^ 63 - 1.

(** Into a Go [int] (64 bits): an integer literal in range. *)
Definition store_int (old : Z) (j : json) : decoded Z :=
  match j with
  | JNumber (NInt z) =>
      if (MinInt <=? z) && (z <=? MaxInt) then inl z else inr UnmarshalTypeError
  | JNull => inl old
  | _ => inr UnmarshalTypeError
  end.

(** An ASCII capital letter lowered; any other byte as it is. *)
Definition lower (ch : ascii) : ascii :=
  let c := big.byte_of ch in
  if (65 <=? c) && (c <=? 90) then ascii_of_N (Z.to_N (c + 32)) else ch.

(** A string with its ASCII letters lowered. *)
Fixpoint foldName (s : string) : string :=
  match s with
  | EmptyString => EmptyString
  | String ch rest => String (lower ch) (foldName rest)
  end.

(** The two runes outside ASCII that Unicode simple case folding puts with
    an ASCII letter, in UTF-8: U+017F (long s), folded with [s], and U+212A
    (the Kelvin sign), folded with [k]. *)
Definition is_long_s (c1 c2 : ascii) : bool :=
  (big.byte_of c1 =? 197) && (big.byte_of c2 =? 191).

Definition is_kelvin (c1 c2 c3 : ascii) : bool :=
  (big.byte_of c1 =? 226) && (big.byte_of c2 =? 132) && (big.byte_of c3 =? 170).

(** The name of a key under the simple case folding of [encoding/json]:
    every rune is replaced by one representative of its fold set. The
    ASCII letters are represented by the small letter, and so are the long
    s and the Kelvin sign; no other rune folds with an ASCII character, so
    the bytes of the other runes are left as they are (they match no ASCII
    field name either way). *)
Fixpoint foldKey (s : string) : string :=
  match s with
  | EmptyString => EmptyString
  | String c1 tl =>
      match tl with
      | EmptyString => String (lower c1) EmptyString
      | String c2 tl2 =>
          if is_long_s c1 c2 then String "s" (foldKey tl2)
          else
            match tl2 with
            | EmptyString => String (lower c1) (foldKey tl)
            | String c3 tl3 =>
                if is_kelvin c1 c2 c3 then String "k" (foldKey tl3)
                else String (lower c1) (foldKey tl)
            end
      end
  end.

(** Object keys are matched to struct fields by name: exactly or, failing
    that, under case folding. *)
Definition is_field (name key : string) : bool :=
  String.eqb key name || String.eqb (foldKey key) (foldKey name).

(** The decoder goes on after a type error and reports the first one when
    it is done: a struct under construction is paired with that error. *)
Definition keep_first (e0 : option json_error) (e : json_error)
  : option json_error :=
  match e0 with Some _ => e0 | None => Some e end.

(** *** The JSON-RPC structs of [rpc/client.go] *)

(** [SyncProgress] holds the sync status fields returned by eth_syncing. *)
Record SyncProgress : Type := mkSyncProgress {
  StartingBlock : Z;
  CurrentBlock : Z;
  HighestBlock : Z
}.

(** [jsonRPCRequest] represents a JSON-RPC 2.0 request. *)
Record jsonRPCRequest : Type := mkRequest {
  req_JSONRPC : string;
  req_Method : string;
  req_Params : list json;
  req_ID : Z
}.

(** [jsonRPCError] represents a JSON-RPC 2.0 error object. *)
Record jsonRPCError : Type := mkRPCError {
  Code : Z;
  Message : string
}.

(** [jsonRPCResponse] represents a JSON-RPC 2.0 response; [Error] is a
    pointer, [None] when nil. *)
Record jsonRPCResponse : Type := mkResponse {
  JSONRPC : string;
  Result : RawMessage;
  Error : option jsonRPCError;
  ID : Z
}.

Definition zero_jsonRPCError : jsonRPCError := mkRPCError 0 "".
Definition zero_jsonRPCResponse : jsonRPCResponse := mkResponse "" None None 0.

(** One member of an object decoded into a [jsonRPCError]. *)
Definition member_jsonRPCError (acc : jsonRPCError * option json_error)
  (kv : string * json) : jsonRPCError * option json_error :=
  let '(v, e0) := acc in
  let '(key, j) := kv in
  if is_field "code" key then
    match store_int (Code v) j with
    | inl n => (mkRPCError n (Message v), e0)
    | inr e => (v, keep_first e0 e)
    end
  else if is_field "message" key then
    match store_string (Message v) j with
    | inl s => (mkRPCError (Code v) s, e0)
    | inr e => (v, keep_first e0 e)
    end
  else acc.

(** A JSON value stored into a [*jsonRPCError]: [null] sets the pointer to
    nil, an object fills the struct the pointer refers to (a new zero
    struct when the pointer is nil). *)
Definition store_jsonRPCError (old : option jsonRPCError) (j : json)
  : option jsonRPCError * option json_error :=
  match j with
  | JNull => (None, None)
  | JObject members =>
      let start := match old with Some v => v | None => zero_jsonRPCError end in
      let '(v, e) := fold_left member_jsonRPCError members (start, None) in
      (Some v, e)
  | _ => (old, Some UnmarshalTypeError)
  end.

(** One member of an object decoded into a [jsonRPCResponse]. *)
Definition member_jsonRPCResponse (acc : jsonRPCResponse * option json_error)
  (kv : string * json) : jsonRPCResponse * option json_error :=
  let '(v, e0) := acc in
  let '(key, j) := kv in
  if is_field "jsonrpc" key then
    match store_string (JSONRPC v) j with
    | inl s => (mkResponse s (Result v) (Error v) (ID v), e0)
    | inr e => (v, keep_first e0 e)
    end
  else if is_field "result" key then
    (mkResponse (JSONRPC v) (Some j) (Error v) (ID v), e0)
  else if is_field "error" key then
    let '(p, e) := store_jsonRPCError (Error v) j in
    (mkResponse (JSONRPC v) (Result v) p (ID v),
     match e with Some e => keep_first e0 e | None => e0 end)
  else if is_field "id" key then
    match store_int (ID v) j with
    | inl n => (mkResponse (JSONRPC v) (Result v) (Error v) n, e0)
    | inr e => (v, keep_first e0 e)
    end
  else acc.

(** [json.Unmarshal(data, &rpcResp)] on the value tree of [data]. *)
Definition Unmarshal_jsonRPCResponse (j : json) : decoded jsonRPCResponse :=
  match j with
  | JNull => inl zero_jsonRPCResponse
  | JObject members =>
      match fold_left member_jsonRPCResponse members (zero_jsonRPCResponse, None) with
      | (v, None) => inl v
      | (_, Some e) => inr e
      end
  | _ => inr UnmarshalTypeError
  end.

(** [json.Unmarshal(result, &s)] for a [string] variable that holds "". *)
Definition Unmarshal_string (data : RawMessage) : decoded string :=
  match data with
  | None => inr SyntaxError
  | Some j => store_string "" j
  end.

(** [json.Unmarshal(result, &b)] for a [bool] variable that holds false. *)
Definition Unmarshal_bool (data : RawMessage) : decoded bool :=
  match data with
  | None => inr SyntaxError
  | Some j => store_bool false j
  end.

(** One member of an object decoded into a [map[string]string]: the key is
    set to the decoded string, a later member with the same key wins. *)
Definition member_map (acc : gmap string string * option json_error)
  (kv : string * json) : gmap string string * option json_error :=
  let '(m, e0) := acc in
  let '(key, j) := kv in
  match store_string "" j with
  | inl s => (<[key := s]> m, e0)
  | inr e => (<[key := ""]> m, keep_first e0 e)
  end.

(** [json.Unmarshal(result, &rawProgress)] for a nil [map[string]string]. *)
Definition Unmarshal_map (data : RawMessage) : decoded (gmap string string) :=
  match data with
  | None => inr SyntaxError
  | Some JNull => inl ∅
  | Some (JObject members) =>
      match fold_left member_map members (∅, None) with
      | (m, None) => inl m
      | (_, Some e) => inr e
      end
  | Some _ => inr UnmarshalTypeError
  end.

(** ** [net/http]: what one POST gives back *)

Inductive read_result : Type :=
| ReadErr (cause : string)
| ReadOk (b : body).

Record Response : Type := mkHTTPResponse {
  StatusCode : Z;
  Body : read_result
}.

(** The result of [httpClient.Post]: an error (connection refused, timeout,
    ...) or a response. *)
Inductive post_result : Type :=
| PostErr (cause : string)
| PostOk (resp : Response).

Definition StatusOK : Z := 200.
Definition StatusServiceUnavailable : Z := 503.

(** [http.Client]: the timeout, in seconds. *)
Record http_Client : Type := mkHTTPClient { Timeout : Z }.

(** [Client] is a JSON-RPC client for an EVM-compatible node. *)
Record Client : Type := mkClient {
  endpoint : string;
  httpClient : http_Client
}.

(** [NewClient] creates a new RPC client for the given endpoint URL. *)
Definition NewClient (endpoint : string) : Client :=
  mkClient endpoint (mkHTTPClient 10).

(** [json.Unmarshal(respBody, &rpcResp)]. *)
Definition Unmarshal_body (respBody : body) : decoded jsonRPCResponse :=
  match tree respBody with
  | None => inr SyntaxError
  | Some j => Unmarshal_jsonRPCResponse j
  end.

(** What [call] makes of the outcome of its POST (lines 79-102 of
    [rpc/client.go]). *)
Definition call_outcome (c : Client) (r : post_result)
  : RawMessage * option error :=
  match r with
  | PostErr cause => (None, Some (ErrRequest (endpoint c) cause))
  | PostOk resp =>
      match Body resp with
      | ReadErr cause => (None, Some (ErrReadBody cause))
      | ReadOk respBody =>
          if negb (StatusCode resp =? StatusOK) then
            (None, Some (ErrHTTPStatus (StatusCode resp) respBody))
          else
            match Unmarshal_body respBody with
            | inr e => (None, Some (ErrUnmarshalResponse e))
            | inl rpcResp =>
                match Error rpcResp with
                | Some e => (None, Some (ErrRPC (Code e) (Message e)))
                | None => (Result rpcResp, None)
                end
            end
      end
  end.

(** What [GetBlockNumber] and [GetChainID] make of the result of [call];
    [wrap] is the [fmt.Errorf] of the caller. *)
Definition decode_quantity (wrap : json_error -> error)
  (r : RawMessage * option error) : Z * option error :=
  match r with
  | (_, Some err) => (0, Some err)
  | (result, None) =>
      match Unmarshal_string result with
      | inr e => (0, Some (wrap e))
      | inl hex => parseHexUint64 hex
      end
  end.

(** The three field updates of [GetSyncStatus] (lines 157-166). *)
Definition fill_progress (rawProgress : gmap string string) : SyncProgress :=
  let progress := mkSyncProgress 0 0 0 in
  let progress :=
    match rawProgress !! "startingBlock" with
    | Some v => mkSyncProgress (fst (parseHexUint64 v))
                  (CurrentBlock progress) (HighestBlock progress)
    | None => progress
    end in
  let progress :=
    match rawProgress !! "currentBlock" with
    | Some v => mkSyncProgress (StartingBlock progress)
                  (fst (parseHexUint64 v)) (HighestBlock progress)
    | None => progress
    end in
  let progress :=
    match rawProgress !! "highestBlock" with
    | Some v => mkSyncProgress (StartingBlock progress)
                  (CurrentBlock progress) (fst (parseHexUint64 v))
    | None => progress
    end in
  progress.

(** What [GetSyncStatus] makes of the result of [call]. *)
Definition decode_sync (r : RawMessage * option error)
  : bool * option SyncProgress * option error :=
  match r with
  | (_, Some err) => (false, None, Some err)
  | (result, None) =>
      match Unmarshal_bool result with
      | inl _ => (false, None, None)
      | inr _ =>
          match Unmarshal_map result with
          | inr e => (false, None, Some (ErrUnmarshalSyncProgress e))
          | inl rawProgress => (true, Some (fill_progress rawProgress), None)
          end
      end
  end.

(** ** The collector and the health handler: their data *)

(** A [float64] as the collector builds it: a literal or the conversion of
    a [uint64]. *)
Inductive float64 : Type :=
| f64_zero                  (* 0.0 *)
| f64_one                   (* 1.0 *)
| f64_of_uint64 (n : Z).    (* float64(n) *)

Inductive ValueType : Type := CounterValue | GaugeValue | UntypedValue.

(** A constant metric: the fully-qualified name of its descriptor, its
    type and its value. *)
Record Metric : Type := mkMetric {
  fqName : string;
  valueType : ValueType;
  value : float64
}.

Definition namespace : string := "goat".

(** [prometheus.BuildFQName] with an empty subsystem. *)
Definition BuildFQName (ns name : string) : string := ns ++ "_" ++ name.

(** [GoatCollector] collects metrics from a goat RPC node. *)
Record GoatCollector : Type := mkCollector {
  client : Client;
  blockHeight : string;
  chainID : string;
  syncing : string;
  rpcUp : string
}.

(** [NewGoatCollector] creates a new collector for the given RPC client. *)
Definition NewGoatCollector (client : Client) : GoatCollector :=
  mkCollector client
    (BuildFQName namespace "block_height")
    (BuildFQName namespace "chain_id")
    (BuildFQName namespace "syncing")
    (BuildFQName namespace "rpc_up").

(** A line written by [log.Printf]: what precedes the [%v], and the error
    printed there. *)
Record log_line : Type := mkLog {
  log_prefix : string;
  log_err : error
}.

(** What one [Collect] leaves behind: the metrics sent on the channel and
    the lines logged, both in order. *)
Record collected : Type := mkCollected {
  sent : list Metric;
  logged : list log_line
}.

(** [syncProgress] provides sync details when the node is syncing. *)
Record syncProgress : Type := mkProgress {
  starting_block : Z;
  current_block : Z;
  highest_block : Z
}.

(** [healthResponse] represents the JSON structure returned by /health. *)
Record healthResponse : Type := mkHealth {
  Status : string;
  NodeEndpoint : string;
  BlockHeight : Z;
  ChainID : Z;
  Syncing : bool;
  Sync_Progress : option syncProgress;
  Timestamp : string;
  ErrorText : string
}.

(** What the handler writes to its [http.ResponseWriter]. *)
Record written : Type := mkWritten {
  ContentType : string;
  WrittenStatus : Z;
  Payload : healthResponse
}.

(** Field updates of [healthResponse]. *)
Definition set_Status (s : string) (r : healthResponse) : healthResponse :=
  mkHealth s (NodeEndpoint r) (BlockHeight r) (ChainID r) (Syncing r)
    (Sync_Progress r) (Timestamp r) (ErrorText r).
Definition set_ErrorText (s : string) (r : healthResponse) : healthResponse :=
  mkHealth (Status r) (NodeEndpoint r) (BlockHeight r) (ChainID r) (Syncing r)
    (Sync_Progress r) (Timestamp r) s.
Definition set_BlockHeight (n : Z) (r : healthResponse) : healthResponse :=
  mkHealth (Status r) (NodeEndpoint r) n (ChainID r) (Syncing r)
    (Sync_Progress r) (Timestamp r) (ErrorText r).
Definition set_ChainID (n : Z) (r : healthResponse) : healthResponse :=
  mkHealth (Status r) (NodeEndpoint r) (BlockHeight r) n (Syncing r)
    (Sync_Progress r) (Timestamp r) (ErrorText r).
Definition set_Syncing (b : bool) (r : healthResponse) : healthResponse :=
  mkHealth (Status r) (NodeEndpoint r) (BlockHeight r) (ChainID r) b
    (Sync_Progress r) (Timestamp r) (ErrorText r).
Definition set_Sync_Progress (p : option syncProgress) (r : healthResponse)
  : healthResponse :=
  mkHealth (Status r) (NodeEndpoint r) (BlockHeight r) (ChainID r) (Syncing r)
    p (Timestamp r) (ErrorText r).

(** ** The program over a transport

    The world outside the process (the node, the network, the clock) is a
    state of type [World]; [Post] is [http.Client.Post] on it, whose request
    body is the [jsonRPCRequest] that [json.Marshal] serialises (marshalling
    a request whose parameters are JSON values cannot fail). [Now] is
    [time.Now().UTC().Format(time.RFC3339)], and [errText] the text that
    [fmt] prints for an error under [%v]. *)

Section Polling.

Variable World : Type.
Variable Post :
  http_Client -> string -> string -> jsonRPCRequest -> World -> post_result * World.
Variable Now : World -> string.
Variable errText : error -> string.

(** Computations that act on the world. *)
Definition M (A : Type) : Type := World -> A * World.

Definition ret {A : Type} (a : A) : M A := fun w => (a, w).

Definition bind {A B : Type} (m : M A) (k : A -> M B) : M B :=
  fun w => let (a, w') := m w in k a w'.

Notation "'do' x <- m ; k" := (bind m (fun x => k))
  (at level 10, x pattern, m at level 100, k at level 200).

(** [call] executes a JSON-RPC method and returns the raw result. *)
Definition call (c : Client) (method : string) (params : list json)
  : M (RawMessage * option error) :=
  let req := mkRequest "2.0" method params 1 in
  do r <- Post (httpClient c) (endpoint c) "application/json" req;
  ret (call_outcome c r).

(** [GetBlockNumber] returns the current block height (eth_blockNumber). *)
Definition GetBlockNumber (c : Client) : M (Z * option error) :=
  do r <- call c "eth_blockNumber" [];
  ret (decode_quantity ErrUnmarshalBlockNumber r).

(** [GetChainID] returns the chain ID (eth_chainId). *)
Definition GetChainID (c : Client) : M (Z * option error) :=
  do r <- call c "eth_chainId" [];
  ret (decode_quantity ErrUnmarshalChainID r).

(** [GetSyncStatus] returns whether the node is syncing and its
    progress. *)
Definition GetSyncStatus (c : Client)
  : M (bool * option SyncProgress * option error) :=
  do r <- call c "eth_syncing" [];
  ret (decode_sync r).

(** [Collect] queries the RPC node and sends metric values to the
    provided channel. *)
Definition Collect (c : GoatCollector) : M collected :=
  let up := f64_one in
  let ch : list Metric := [] in
  let log : list log_line := [] in
  (* fetch block height *)
  do (block, err) <- GetBlockNumber (client c);
  let '(log, up) :=
    match err with
    | Some e => ((log ++ [mkLog "error fetching block number: " e])%list, f64_zero)
    | None => (log, up)
    end in
  let ch := (ch ++ [mkMetric (blockHeight c) GaugeValue (f64_of_uint64 block)])%list in
  (* fetch chain ID *)
  do (chain, err) <- GetChainID (client c);
  let '(log, up) :=
    match err with
    | Some e => ((log ++ [mkLog "error fetching chain id: " e])%list, f64_zero)
    | None => (log, up)
    end in
  let ch := (ch ++ [mkMetric (chainID c) GaugeValue (f64_of_uint64 chain)])%list in
  (* fetch sync status *)
  do (isSyncing, _, err) <- GetSyncStatus (client c);
  let '(log, up) :=
    match err with
    | Some e => ((log ++ [mkLog "error fetching sync status: " e])%list, f64_zero)
    | None => (log, up)
    end in
  let syncVal := f64_zero in
  let syncVal := if isSyncing : bool then f64_one else syncVal in
  let ch := (ch ++ [mkMetric (syncing c) GaugeValue syncVal])%list in
  (* report RPC availability *)
  let ch := (ch ++ [mkMetric (rpcUp c) GaugeValue up])%list in
  ret (mkCollected ch log).

(** [healthHandler] queries the RPC node and returns a JSON health
    response. *)
Definition healthHandler (client : Client) (endpoint : string) : M written :=
  do timestamp <- (fun w => (Now w, w));
  let resp := mkHealth "ok" endpoint 0 0 false None timestamp "" in
  (* fetch block height *)
  do (block, err) <- GetBlockNumber client;
  let resp :=
    match err with
    | Some e =>
        let resp := set_Status "degraded" resp in
        set_ErrorText ("block number: " ++ errText e) resp
    | None => resp
    end in
  let resp := set_BlockHeight block resp in
  (* fetch chain ID *)
  do (chainID, err) <- GetChainID client;
  let resp :=
    match err with
    | Some e =>
        let resp := set_Status "degraded" resp in
        let resp :=
          if negb (String.eqb (ErrorText resp) "")
          then set_ErrorText (ErrorText resp ++ "; ") resp else resp in
        set_ErrorText (ErrorText resp ++ "chain id: " ++ errText e) resp
    | None => resp
    end in
  let resp := set_ChainID chainID resp in
  (* fetch sync status *)
  do (syncing, progress, err) <- GetSyncStatus client;
  let resp :=
    match err with
    | Some e =>
        let resp := set_Status "degraded" resp in
        let resp :=
          if negb (String.eqb (ErrorText resp) "")
          then set_ErrorText (ErrorText resp ++ "; ") resp else resp in
        set_ErrorText (ErrorText resp ++ "sync status: " ++ errText e) resp
    | None => resp
    end in
  let resp := set_Syncing syncing resp in
  let resp :=
    match progress with
    | Some p =>
        set_Sync_Progress
          (Some (mkProgress (StartingBlock p) (CurrentBlock p) (HighestBlock p)))
          resp
    | None => resp
    end in
  let code :=
    if negb (String.eqb (Status resp) "ok")
    then StatusServiceUnavailable else StatusOK in
  ret (mkWritten "application/json" code resp).

(** The three calls of one poll, in the order of both aggregators, and
    what each returned. *)
Definition poll (c : Client)
  : M ((Z * option error) * (Z * option error)
       * (bool * option SyncProgress * option error)) :=
  do r1 <- GetBlockNumber c;
  do r2 <- GetChainID c;
  do r3 <- GetSyncStatus c;
  ret (r1, r2, r3).

End Polling.

Arguments ret {World A} a.
Arguments bind {World A B} m k.

(** ** Transports used to observe the program *)

(** A transport that also keeps the requests it was given, in order. *)
Definition recording {World : Type}
  (Post : http_Client -> string -> string -> jsonRPCRequest -> World -> post_result * World)
  : http_Client -> string -> string -> jsonRPCRequest ->
    World * list jsonRPCRequest -> post_result * (World * list jsonRPCRequest) :=
  fun hc url contentType req st =>
    let (r, w') := Post hc url contentType req (fst st) in
    (r, (w', (snd st ++ [req])%list)).

(** A fake transport: the node answers the successive requests with the
    replies of a script, and refuses the connection once the script is
    used up. *)
Definition scripted (hc : http_Client) (url contentType : string)
  (req : jsonRPCRequest) (replies : list post_result)
  : post_result * list post_result :=
  match replies with
  | [] => (PostErr "connection refused", [])
  | r :: rest => (r, rest)
  end.

(** A reply with the given status whose body is the JSON text [j]. *)
Definition reply_status (code : Z) (j : json) : post_result :=
  PostOk (mkHTTPResponse code (ReadOk (JSONText j))).

(** A 200 reply. *)
Definition reply_json (j : json) : post_result := reply_status StatusOK j.

(** The envelope [{"jsonrpc":"2.0","id":1,"result":r}]. *)
Definition envelope (r : json) : json :=
  JObject [("jsonrpc", JString "2.0"); ("id", JNumber (NInt 1)); ("result", r)].

(** A node that answers the three requests of a poll: block height
    10235456, chain id 2345, not syncing. *)
Definition node_synced : list post_result :=
  [reply_json (envelope (JString "0x9c2e40"));
   reply_json (envelope (JString "0x929"));
   reply_json (envelope (JBool false))].

(** The same node when its first answer is an HTTP 500. *)
Definition node_block_fails : list post_result :=
  [reply_status 500 (JString "internal error");
   reply_json (envelope (JString "0x929"));
   reply_json (envelope (JBool false))].

(** An envelope in which both [result] and [error] are populated. *)
Definition envelope_both : json :=
  JObject [("jsonrpc", JString "2.0"); ("id", JNumber (NInt 1));
           ("result", JString "0x10");
           ("error", JObject [("code", JNumber (NInt (-32000)));
                              ("message", JString "header not found")])].

Definition example_endpoint : string := "http://localhost:8545".
Definition example_client : Client := NewClient example_endpoint.
Definition example_collector : GoatCollector := NewGoatCollector example_client.
Definition example_now (w : list post_result) : string := "2024-01-01T00:00:00Z".

(** An error text for the examples: the class of the error. *)
Definition class_text (e : error) : string :=
  match classify e with
  | TransportError => "TransportError"
  | ProtocolError => "ProtocolError"
  | RPCError => "RPCError"
  | DecodeError => "DecodeError"
  end.

(** ** What the specification speaks of *)

(** The hexadecimal digits and their values. *)
Definition lower_digits : string := "0123456789abcdef".
Definition upper_digits : string := "0123456789ABCDEF".

Fixpoint index_of (ch : ascii) (s : string) : option nat :=
  match s with
  | EmptyString => None
  | String c rest =>
      if Ascii.eqb c ch then Some O
      else match index_of ch rest with Some i => Some (S i) | None => None end
  end.

Definition hex_digit_value (ch : ascii) : option Z :=
  match index_of ch lower_digits with
  | Some i => Some (Z.of_nat i)
  | None =>
      match index_of ch upper_digits with
      | Some i => Some (Z.of_nat i)
      | None => None
      end
  end.

Definition is_hex_digit (ch : ascii) : bool :=
  match hex_digit_value ch with Some _ => true | None => false end.

(** [nat.scan] and the table of digits agree on a byte. *)
Definition digit_agrees (ch : ascii) : bool :=
  match hex_digit_value ch with
  | Some d => (big.digitVal 16 ch =? d) && (0 <=? d) && (d <? 16)
  | None => 16 <=? big.digitVal 16 ch
  end.

(** A string has a character that is not a hexadecimal digit. *)
Fixpoint has_non_hex (s : string) : bool :=
  match s with
  | EmptyString => false
  | String ch rest => negb (is_hex_digit ch) || has_non_hex rest
  end.

(** The numeric value of a string of hexadecimal digits, most significant
    digit first; there is none when the string is empty or has another
    character. *)
Fixpoint hex_value_from (acc : Z) (s : string) : option Z :=
  match s with
  | EmptyString => Some acc
  | String ch rest =>
      match hex_digit_value ch with
      | Some d => hex_value_from (16 * acc + d) rest
      | None => None
      end
  end.

Definition hex_value (s : string) : option Z :=
  match s with
  | EmptyString => None
  | String _ _ => hex_value_from 0 s
  end.

(** Lowercase hexadecimal without leading zeros, as [strconv.FormatUint(n,
    16)] writes a [uint64]: the digits are produced from the least
    significant one; sixteen digits are enough below [2^64]. *)
Definition hexDigit (d : Z) : ascii :=
  match String.get (Z.to_nat d) lower_digits with
  | Some ch => ch
  | None => "0"%char
  end.

Fixpoint formatHex_aux (fuel : nat) (n : Z) (acc : string) : string :=
  match fuel with
  | O => acc
  | S fuel' =>
      let acc' := String (hexDigit (n mod 16)) acc in
      if n <? 16 then acc' else formatHex_aux fuel' (n / 16) acc'
  end.

Definition formatHex (n : Z) : string := formatHex_aux 16 n "".

(** The string without one leading sign, as [scanSign] leaves it. *)
Definition unsigned_part (s : string) : string :=
  match big.scanSign s with
  | Some (_, rest) => rest
  | None => s
  end.

(** The records of the calls that failed, in the order of the calls: each
    is the label of its field and the error. *)
Definition perFieldErrors (l1 l2 l3 : string) (e1 e2 e3 : option error)
  : list (string * error) :=
  (match e1 with Some e => [(l1, e)] | None => [] end ++
   match e2 with Some e => [(l2, e)] | None => [] end ++
   match e3 with Some e => [(l3, e)] | None => [] end)%list.

(** The progress as the health response shows it. *)
Definition shown (p : SyncProgress) : syncProgress :=
  mkProgress (StartingBlock p) (CurrentBlock p) (HighestBlock p).

(** All three calls succeeded. *)
Definition all_ok (e1 e2 e3 : option error) : bool :=
  match e1, e2, e3 with
  | None, None, None => true
  | _, _, _ => false
  end.

(** The HTTP roundtrip failed: no response, a body that could not be read,
    or a status other than 200. *)
Definition roundtrip_failed (r : post_result) : bool :=
  match r with
  | PostErr _ => true
  | PostOk resp =>
      match Body resp with
      | ReadErr _ => true
      | ReadOk _ => negb (StatusCode resp =? StatusOK)
      end
  end.

(** The error, if any, is of the given class. *)
Definition fails_with (cls : error_class) (err : option error) : Prop :=
  exists e, err = Some e /\ classify e = cls.

(** The request that [call] sends for a method without parameters. *)
Definition request_of (method : string) : jsonRPCRequest :=
  mkRequest "2.0" method [] 1.

(** The records joined into one text with "; " between them. *)
Fixpoint join_records (sep : string) (l : list string) : string :=
  match l with
  | [] => ""
  | [x] => x
  | x :: rest => x ++ sep ++ join_records sep rest
  end.


(** ** The descriptors of the collector *)

(** [Describe] sends the descriptor for each metric to the provided
    channel: the descriptors sent, in order, each as its fully-qualified
    name. *)
Definition Describe (c : GoatCollector) : list string :=
  [blockHeight c; chainID c; syncing c; rpcUp c].

(** ** More of what the properties speak of *)

(** A JSON value that a Go [string] accepts: a string or [null]. *)
Definition is_text (j : json) : bool :=
  match j with
  | JString _ | JNull => true
  | _ => false
  end.

(** The Go string that such a value leaves in a fresh variable. *)
Definition text_of (j : json) : string :=
  match j with
  | JString s => s
  | _ => ""
  end.

(** A JSON value that a Go [int] accepts: an integer literal in range, or
    [null]. *)
Definition fits_int (j : json) : bool :=
  match j with
  | JNumber (NInt z) => (MinInt <=? z) && (z <=? MaxInt)
  | JNull => true
  | _ => false
  end.

(** The text of the last member of an object that has the given key. *)
Definition last_value (key : string) (members : list (string * json))
  : option string :=
  fold_left
    (fun acc kv => if String.eqb (fst kv) key then Some (text_of (snd kv)) else acc)
    members None.

(** A field of the progress, from the text found for its key. *)
Definition field_of (v : option string) : Z :=
  match v with
  | Some hex => fst (parseHexUint64 hex)
  | None => 0
  end.

(** * Properties *)

(** ** The hex decoder *)

Section HexDecoder.

Import big.

Lemma digit_agrees_all (ch : ascii) : digit_agrees ch = true.
Proof.
  destruct ch as [b0 b1 b2 b3 b4 b5 b6 b7].
  destruct b0, b1, b2, b3, b4, b5, b6, b7; vm_compute; reflexivity.
Qed.

Lemma digitVal_hex (ch : ascii) (d : Z) :
  hex_digit_value ch = Some d -> digitVal 16 ch = d /\ 0 <= d < 16.
Proof.
  intros H. pose proof (digit_agrees_all ch) as A.
  unfold digit_agrees in A. rewrite H in A.
  apply andb_prop in A as [A A3]. apply andb_prop in A as [A1 A2].
  lia.
Qed.

Lemma digitVal_non_hex (ch : ascii) :
  hex_digit_value ch = None -> 16 <= digitVal 16 ch.
Proof.
  intros H. pose proof (digit_agrees_all ch) as A.
  unfold digit_agrees in A. rewrite H in A. lia.
Qed.

(** On a string of hex digits the scan reads everything. *)
Lemma scanDigits_hex (s : string) :
  forall (z v : Z) (c : nat),
    hex_value_from z s = Some v ->
    scanDigits 16 s z c = (v, (c + String.length s)%nat, EmptyString).
Proof.
  induction s as [|ch rest IH]; intros z v c H; simpl in *.
  - inversion H; subst. f_equal. f_equal. lia.
  - destruct (hex_digit_value ch) as [d|] eqn:Hd; [|discriminate].
    destruct (digitVal_hex _ _ Hd) as [-> Hr].
    destruct (Z.leb_spec 16 d) as [?|_]; [lia|].
    replace (z * 16 + d) with (16 * z + d) by lia.
    rewrite (IH _ _ _ H). f_equal. f_equal. lia.
Qed.

(** On any other string the scan stops before the end. *)
Lemma scanDigits_non_hex (s : string) :
  forall (z : Z) (c : nat),
    has_non_hex s = true ->
    exists v c' ch rest, scanDigits 16 s z c = (v, c', String ch rest).
Proof.
  induction s as [|ch rest IH]; intros z c H; simpl in *; [discriminate|].
  unfold is_hex_digit in H.
  destruct (hex_digit_value ch) as [d|] eqn:Hd; simpl in H.
  - destruct (digitVal_hex _ _ Hd) as [-> Hr].
    destruct (Z.leb_spec 16 d) as [?|_]; [lia|].
    apply IH; assumption.
  - pose proof (digitVal_non_hex _ Hd) as Hge.
    destruct (Z.leb_spec 16 (digitVal 16 ch)) as [_|?]; [|lia].
    eauto.
Qed.

Lemma hex_value_from_total (s : string) :
  forall z, has_non_hex s = false -> exists v, hex_value_from z s = Some v.
Proof.
  induction s as [|ch rest IH]; intros z H; simpl in *; [eauto|].
  unfold is_hex_digit in H.
  destruct (hex_digit_value ch) as [d|]; simpl in H; [|discriminate].
  apply IH; assumption.
Qed.

Lemma hex_value_from_nonneg (s : string) :
  forall z v, 0 <= z -> hex_value_from z s = Some v -> 0 <= v.
Proof.
  induction s as [|ch rest IH]; intros z v Hz H; simpl in *.
  - inversion H; subst; assumption.
  - destruct (hex_digit_value ch) as [d|] eqn:Hd; [|discriminate].
    destruct (digitVal_hex _ _ Hd) as [_ Hr].
    apply (IH (16 * z + d)); [lia | assumption].
Qed.

(** [SetString] in base 16: exactly the strings made of an optional sign
    and at least one hex digit are accepted. *)
Lemma SetString_hex (s : string) (v : Z) :
  hex_value (unsigned_part s) = Some v ->
  exists n, SetString s 16 = Some n /\ abs n = v.
Proof.
  unfold SetString, unsigned_part, hex_value.
  destruct (scanSign s) as [[sg rest]|] eqn:Hs.
  - intros H. destruct rest as [|ch rest]; [discriminate|].
    rewrite (scanDigits_hex _ _ _ 0 H). simpl. eauto.
  - destruct s; [discriminate|]. unfold scanSign in Hs.
    destruct (Ascii.eqb a "-"); [discriminate|].
    destruct (Ascii.eqb a "+"); discriminate.
Qed.

Lemma SetString_non_hex (s : string) :
  hex_value (unsigned_part s) = None -> SetString s 16 = None.
Proof.
  unfold SetString, unsigned_part, hex_value.
  destruct (scanSign s) as [[sg rest]|] eqn:Hs; [|reflexivity].
  destruct rest as [|ch rest]; [reflexivity|].
  intros H.
  destruct (has_non_hex (String ch rest)) eqn:Hn.
  - destruct (scanDigits_non_hex _ 0 0%nat Hn) as (v & c' & ch' & r' & ->).
    destruct c'; reflexivity.
  - destruct (hex_value_from_total _ 0 Hn) as [v Hv]. congruence.
Qed.

Lemma substring_0_0 (s : string) : substring 0 0 s = EmptyString.
Proof. destruct s; reflexivity. Qed.

Lemma substring_all (s : string) : substring 0 (String.length s) s = s.
Proof. induction s as [|ch r IH]; simpl; [|rewrite IH]; reflexivity. Qed.

Lemma stripHexPrefix_0x (s : string) : stripHexPrefix ("0x" ++ s) = s.
Proof.
  unfold stripHexPrefix. simpl. rewrite substring_0_0. simpl.
  rewrite Nat.sub_0_r. apply substring_all.
Qed.

Lemma stripHexPrefix_0X (s : string) : stripHexPrefix ("0X" ++ s) = s.
Proof.
  unfold stripHexPrefix. simpl. rewrite substring_0_0. simpl.
  rewrite Nat.sub_0_r. apply substring_all.
Qed.

(** A string of hex digits has no prefix to strip and no sign. *)
Lemma stripHexPrefix_hex (s : string) (v : Z) :
  hex_value s = Some v -> stripHexPrefix s = s.
Proof.
  intros H. destruct s as [|a [|b r]]; try reflexivity.
  unfold stripHexPrefix. cbn [String.length Nat.leb andb substring].
  rewrite substring_0_0.
  assert (Hb : Ascii.eqb b "x" = false /\ Ascii.eqb b "X" = false).
  { simpl in H. destruct (hex_digit_value a); [|discriminate].
    destruct (hex_digit_value b) eqn:Hb; [|discriminate].
    split; apply Ascii.eqb_neq; intros ->; discriminate. }
  destruct Hb as [H1 H2].
  cbn [String.eqb]. rewrite H1, H2.
  destruct (Ascii.eqb a "0"); reflexivity.
Qed.

Lemma unsigned_part_hex (s : string) (v : Z) :
  hex_value s = Some v -> unsigned_part s = s.
Proof.
  intros H. destruct s as [|a r]; [reflexivity|].
  unfold unsigned_part, scanSign.
  simpl in H. destruct (hex_digit_value a) eqn:Ha; [|discriminate].
  destruct (Ascii.eqb_spec a "-") as [->|_]; [discriminate|].
  destruct (Ascii.eqb_spec a "+") as [->|_]; [discriminate|].
  reflexivity.
Qed.

(** The decoder on a stripped string with a value. *)
Lemma parseHexUint64_value (hex : string) (v : Z) :
  hex_value (unsigned_part (stripHexPrefix hex)) = Some v ->
  parseHexUint64 hex = (v mod uint64_modulus, None).
Proof.
  intros H. unfold parseHexUint64.
  destruct (SetString_hex _ _ H) as (n & -> & Hn).
  unfold Uint64. rewrite Hn. reflexivity.
Qed.

Lemma parseHexUint64_digits (s : string) (v : Z) :
  hex_value s = Some v ->
  parseHexUint64 s = (v mod uint64_modulus, None) /\
  parseHexUint64 ("0x" ++ s) = (v mod uint64_modulus, None) /\
  parseHexUint64 ("0X" ++ s) = (v mod uint64_modulus, None).
Proof.
  intros H. repeat split; apply parseHexUint64_value.
  - rewrite (stripHexPrefix_hex _ _ H), (unsigned_part_hex _ _ H); exact H.
  - rewrite stripHexPrefix_0x, (unsigned_part_hex _ _ H); exact H.
  - rewrite stripHexPrefix_0X, (unsigned_part_hex _ _ H); exact H.
Qed.

Lemma has_non_hex_no_value (s : string) :
  forall z, has_non_hex s = true -> hex_value_from z s = None.
Proof.
  induction s as [|ch r IH]; intros z H; simpl in *; [discriminate|].
  unfold is_hex_digit in H.
  destruct (hex_digit_value ch); simpl in H; [apply IH; exact H|reflexivity].
Qed.

(** The digits that [formatHex] writes. *)
Lemma hexDigit_value (d : Z) :
  0 <= d < 16 -> hex_digit_value (hexDigit d) = Some d.
Proof.
  intros H. rewrite <- (Z2Nat.id d) by lia.
  assert (Hk : (Z.to_nat d < 16)%nat) by lia.
  generalize dependent (Z.to_nat d). clear d H. intros k Hk.
  do 16 (destruct k as [|k]; [vm_compute; reflexivity|]). lia.
Qed.

Lemma formatHex_aux_cons (fuel : nat) :
  forall n acc, exists ch r, formatHex_aux (S fuel) n acc = String ch r.
Proof.
  induction fuel as [|f IH]; intros n acc; simpl.
  - destruct (n <? 16); eauto.
  - destruct (n <? 16); [eauto|]. apply IH.
Qed.

Lemma formatHex_aux_value (fuel : nat) :
  forall n acc z, 0 <= n < 16 ^ Z.of_nat fuel ->
    exists k, 0 <= k /\
      hex_value_from z (formatHex_aux fuel n acc)
      = hex_value_from (z * 16 ^ k + n) acc.
Proof.
  induction fuel as [|f IH]; intros n acc z Hn.
  - exists 0. simpl in *. split; [lia|]. f_equal. lia.
  - cbn [formatHex_aux].
    assert (Hd : 0 <= n mod 16 < 16) by (apply Z.mod_pos_bound; lia).
    destruct (Z.ltb_spec n 16) as [Hlt|Hge].
    + exists 1. split; [lia|]. cbn [hex_value_from].
      rewrite (hexDigit_value _ Hd). rewrite Z.mod_small by lia.
      f_equal. lia.
    + assert (Hq : 0 <= n / 16 < 16 ^ Z.of_nat f).
      { split; [apply Z.div_pos; lia|].
        apply Z.div_lt_upper_bound; [lia|].
        replace (16 * 16 ^ Z.of_nat f) with (16 ^ Z.of_nat (S f)); [lia|].
        rewrite Nat2Z.inj_succ, Z.pow_succ_r by lia. reflexivity. }
      destruct (IH (n / 16) (String (hexDigit (n mod 16)) acc) z Hq)
        as (k & Hk & ->).
      exists (k + 1). split; [lia|]. cbn [hex_value_from].
      rewrite (hexDigit_value _ Hd). f_equal.
      rewrite Z.pow_add_r by lia.
      pose proof (Z.div_mod n 16 ltac:(lia)). lia.
Qed.

Lemma hex_value_formatHex (n : Z) :
  is_uint64 n -> hex_value (formatHex n) = Some n.
Proof.
  intros [H0 H1]. unfold formatHex.
  destruct (formatHex_aux_cons 15 n "") as (ch & r & E).
  unfold hex_value. rewrite E, <- E.
  destruct (formatHex_aux_value 16 n "" 0) as (k & _ & ->).
  - unfold MaxUint64, uint64_modulus in H1.
    change (16 ^ Z.of_nat 16) with (2 ^ 64). lia.
  - simpl. reflexivity.
Qed.

End HexDecoder.

Lemma parseHexUint64_uint64 (hex : string) : is_uint64 (fst (parseHexUint64 hex)).
Proof.
  unfold parseHexUint64, is_uint64, MaxUint64.
  destruct (big.SetString (stripHexPrefix hex) 16) as [n|]; simpl.
  - unfold big.Uint64.
    pose proof (Z.mod_pos_bound (big.abs n) uint64_modulus ltac:(reflexivity)).
    lia.
  - unfold uint64_modulus. lia.
Qed.

(** When the decoder fails, the value it returns is 0. *)
Lemma parseHexUint64_error_zero (hex : string) (e : error) :
  snd (parseHexUint64 hex) = Some e -> parseHexUint64 hex = (0, Some (ErrInvalidHex hex)).
Proof.
  unfold parseHexUint64.
  destruct (big.SetString (stripHexPrefix hex) 16); simpl; [discriminate|reflexivity].
Qed.

Lemma parseHexUint64_non_hex (hex : string) :
  has_non_hex (unsigned_part (stripHexPrefix hex)) = true ->
  parseHexUint64 hex = (0, Some (ErrInvalidHex hex)).
Proof.
  intros H. unfold parseHexUint64.
  rewrite SetString_non_hex; [reflexivity|].
  unfold hex_value. destruct (unsigned_part (stripHexPrefix hex)); [reflexivity|].
  apply has_non_hex_no_value; exact H.
Qed.

(** C2, as the specification states it, fails: the hex string
    [0x10000000000000005] has the value [2^64 + 5], which exceeds
    [2^64 - 1], and the decoder returns 5 with no error. *)
Lemma parseHexUint64_overflow_counterexample :
  hex_value "10000000000000005" = Some (2 ^ 64 + 5) /\
  MaxUint64 < 2 ^ 64 + 5 /\
  parseHexUint64 "0x10000000000000005" = (5, None).
Proof. repeat split. Qed.

(** C2 (amended): for every hex string, that is an optional [0x] or [0X]
    prefix followed by at least one hex digit, and whatever its numeric
    value [v], [parseHexUint64] returns [v mod 2^64] and no error: a value
    that exceeds [2^64 - 1] is reduced to its low 64 bits and is not
    rejected with a DecodeError. *)
Theorem parseHexUint64_wraps (s : string) (v : Z) :
  hex_value s = Some v ->
  parseHexUint64 s = (v mod 2 ^ 64, None) /\
  parseHexUint64 ("0x" ++ s) = (v mod 2 ^ 64, None) /\
  parseHexUint64 ("0X" ++ s) = (v mod 2 ^ 64, None).
Proof. intros H. exact (parseHexUint64_digits s v H). Qed.

Lemma parseHexUint64_wraps_witness :
  hex_value "1000000000000000a" = Some (2 ^ 64 + 10) /\
  parseHexUint64 "0x1000000000000000a" = (10, None).
Proof.
  split; [reflexivity|].
  exact (proj1 (proj2 (parseHexUint64_wraps "1000000000000000a" (2 ^ 64 + 10) eq_refl))).
Defined.

(** C8, as the specification states it, fails: what is left of [0x-5] once
    the prefix is stripped is [-5], whose first character is not a hex
    digit, and the decoder returns 5 with no error; so does [+5]. *)
Lemma parseHexUint64_sign_counterexample :
  stripHexPrefix "0x-5" = "-5" /\
  has_non_hex (stripHexPrefix "0x-5") = true /\
  parseHexUint64 "0x-5" = (5, None) /\
  has_non_hex (stripHexPrefix "+5") = true /\
  parseHexUint64 "+5" = (5, None).
Proof. repeat split. Qed.

(** C8 (amended): for every input string whose remainder, after best-effort
    stripping of an optional [0x]/[0X] prefix and with one leading [+] or
    [-] set aside, contains a character that is not a hexadecimal digit,
    [parseHexUint64] fails with a DecodeError (and returns 0). *)
Theorem parseHexUint64_rejects_non_hex (hex : string) :
  has_non_hex (unsigned_part (stripHexPrefix hex)) = true ->
  exists e, parseHexUint64 hex = (0, Some e) /\ classify e = DecodeError.
Proof.
  intros H. exists (ErrInvalidHex hex).
  split; [apply parseHexUint64_non_hex; exact H | reflexivity].
Qed.

Lemma parseHexUint64_rejects_non_hex_witness :
  has_non_hex (unsigned_part (stripHexPrefix "0x12g4")) = true /\
  exists e, parseHexUint64 "0x12g4" = (0, Some e) /\ classify e = DecodeError.
Proof.
  split; [reflexivity|].
  exact (parseHexUint64_rejects_non_hex "0x12g4" eq_refl).
Defined.

(** C9: for every unsigned 64-bit integer [n], its lowercase hexadecimal
    encoding without leading zeros, written bare or after a [0x] or [0X]
    prefix, is decoded by [parseHexUint64] to [n] with no error. *)
Theorem parseHexUint64_formatHex (n : Z) :
  is_uint64 n ->
  parseHexUint64 (formatHex n) = (n, None) /\
  parseHexUint64 ("0x" ++ formatHex n) = (n, None) /\
  parseHexUint64 ("0X" ++ formatHex n) = (n, None).
Proof.
  intros H.
  pose proof (parseHexUint64_digits _ _ (hex_value_formatHex n H)) as D.
  replace (n mod uint64_modulus) with n in D; [exact D|].
  destruct H as [H0 H1]. unfold MaxUint64 in H1.
  symmetry. apply Z.mod_small. lia.
Qed.

Lemma parseHexUint64_formatHex_witness :
  is_uint64 10235456 /\
  formatHex 10235456 = "9c2e40" /\
  parseHexUint64 "0x9c2e40" = (10235456, None).
Proof.
  assert (U : is_uint64 10235456) by (split; intro; discriminate).
  split; [exact U|]. split; [reflexivity|].
  exact (proj1 (proj2 (parseHexUint64_formatHex 10235456 U))).
Defined.

(** ** The JSON-RPC call and the three operations *)

Section PollingProperties.

Variable World : Type.
Variable Post :
  http_Client -> string -> string -> jsonRPCRequest -> World -> post_result * World.
Variable Now : World -> string.
Variable errText : error -> string.

Lemma call_eq (c : Client) (method : string) (params : list json) (w : World) :
  call World Post c method params w
  = (call_outcome c (fst (Post (httpClient c) (endpoint c) "application/json"
                            (mkRequest "2.0" method params 1) w)),
     snd (Post (httpClient c) (endpoint c) "application/json"
            (mkRequest "2.0" method params 1) w)).
Proof.
  unfold call, bind, ret.
  destruct (Post _ _ _ _ w) as [r w']. reflexivity.
Qed.

Lemma GetBlockNumber_eq (c : Client) (w : World) :
  GetBlockNumber World Post c w
  = (decode_quantity ErrUnmarshalBlockNumber
       (fst (call World Post c "eth_blockNumber" [] w)),
     snd (call World Post c "eth_blockNumber" [] w)).
Proof.
  unfold GetBlockNumber, bind, ret.
  destruct (call _ _ _ _ _ w) as [r w']. reflexivity.
Qed.

Lemma GetChainID_eq (c : Client) (w : World) :
  GetChainID World Post c w
  = (decode_quantity ErrUnmarshalChainID
       (fst (call World Post c "eth_chainId" [] w)),
     snd (call World Post c "eth_chainId" [] w)).
Proof.
  unfold GetChainID, bind, ret.
  destruct (call _ _ _ _ _ w) as [r w']. reflexivity.
Qed.

Lemma GetSyncStatus_eq (c : Client) (w : World) :
  GetSyncStatus World Post c w
  = (decode_sync (fst (call World Post c "eth_syncing" [] w)),
     snd (call World Post c "eth_syncing" [] w)).
Proof.
  unfold GetSyncStatus, bind, ret.
  destruct (call _ _ _ _ _ w) as [r w']. reflexivity.
Qed.

(** A failing operation returns the zero value of its result. *)
Lemma decode_quantity_error_zero wrap r (e : error) :
  snd (decode_quantity wrap r) = Some e -> fst (decode_quantity wrap r) = 0.
Proof.
  unfold decode_quantity. destruct r as [result [err|]]; [reflexivity|].
  destruct (Unmarshal_string result) as [hex|je]; [|reflexivity].
  intros H. rewrite (parseHexUint64_error_zero _ _ H). reflexivity.
Qed.

Lemma decode_sync_error_zero r (e : error) :
  snd (decode_sync r) = Some e -> fst (decode_sync r) = (false, None).
Proof.
  unfold decode_sync. destruct r as [result [err|]]; [reflexivity|].
  destruct (Unmarshal_bool result); [reflexivity|].
  destruct (Unmarshal_map result); [discriminate|reflexivity].
Qed.

Lemma GetBlockNumber_error_zero c w (e : error) :
  snd (fst (GetBlockNumber World Post c w)) = Some e ->
  fst (fst (GetBlockNumber World Post c w)) = 0.
Proof. rewrite GetBlockNumber_eq. apply decode_quantity_error_zero. Qed.

Lemma GetChainID_error_zero c w (e : error) :
  snd (fst (GetChainID World Post c w)) = Some e ->
  fst (fst (GetChainID World Post c w)) = 0.
Proof. rewrite GetChainID_eq. apply decode_quantity_error_zero. Qed.

Lemma GetSyncStatus_error_zero c w (e : error) :
  snd (fst (GetSyncStatus World Post c w)) = Some e ->
  fst (fst (GetSyncStatus World Post c w)) = (false, None).
Proof. rewrite GetSyncStatus_eq. apply decode_sync_error_zero. Qed.

(** C4: for every [eth_syncing] result that parses as a JSON boolean,
    whatever the boolean ([true] included), [GetSyncStatus] returns
    syncing = false, no progress and no error. *)
Theorem GetSyncStatus_boolean (c : Client) (w w' : World)
  (result : RawMessage) (b : bool) :
  call World Post c "eth_syncing" [] w = ((result, None), w') ->
  Unmarshal_bool result = inl b ->
  GetSyncStatus World Post c w = ((false, None, None), w').
Proof.
  intros Hc Hb. rewrite GetSyncStatus_eq, Hc. simpl.
  rewrite Hb. reflexivity.
Qed.

(** The fields of the progress that are absent from the object are 0. *)
Lemma fill_progress_absent (m : gmap string string) :
  (m !! "startingBlock" = None -> StartingBlock (fill_progress m) = 0) /\
  (m !! "currentBlock" = None -> CurrentBlock (fill_progress m) = 0) /\
  (m !! "highestBlock" = None -> HighestBlock (fill_progress m) = 0).
Proof.
  unfold fill_progress.
  destruct (m !! "startingBlock"), (m !! "currentBlock"), (m !! "highestBlock");
    repeat split; intros; simpl; congruence.
Qed.

(** The fields that are present hold what the decoder returns for them,
    its error dropped. *)
Lemma fill_progress_present (m : gmap string string) (v : string) :
  (m !! "startingBlock" = Some v ->
   StartingBlock (fill_progress m) = fst (parseHexUint64 v)) /\
  (m !! "currentBlock" = Some v ->
   CurrentBlock (fill_progress m) = fst (parseHexUint64 v)) /\
  (m !! "highestBlock" = Some v ->
   HighestBlock (fill_progress m) = fst (parseHexUint64 v)).
Proof.
  unfold fill_progress.
  destruct (m !! "startingBlock"), (m !! "currentBlock"), (m !! "highestBlock");
    repeat split; intros; simpl; congruence.
Qed.

(** C5: for every [eth_syncing] result that does not parse as a boolean
    but parses as an object of string fields, [GetSyncStatus] returns
    syncing = true, no error, and a progress in which every one of
    [startingBlock], [currentBlock], [highestBlock] that is absent from
    the object is 0 (a missing field is not an error) and every one that
    is present is what the hex decoder returns for it. *)
Theorem GetSyncStatus_object (c : Client) (w w' : World)
  (result : RawMessage) (je : json_error) (m : gmap string string) :
  call World Post c "eth_syncing" [] w = ((result, None), w') ->
  Unmarshal_bool result = inr je ->
  Unmarshal_map result = inl m ->
  exists p : SyncProgress,
    GetSyncStatus World Post c w = ((true, Some p, None), w') /\
    (m !! "startingBlock" = None -> StartingBlock p = 0) /\
    (m !! "currentBlock" = None -> CurrentBlock p = 0) /\
    (m !! "highestBlock" = None -> HighestBlock p = 0) /\
    (forall v, m !! "startingBlock" = Some v ->
               StartingBlock p = fst (parseHexUint64 v)) /\
    (forall v, m !! "currentBlock" = Some v ->
               CurrentBlock p = fst (parseHexUint64 v)) /\
    (forall v, m !! "highestBlock" = Some v ->
               HighestBlock p = fst (parseHexUint64 v)).
Proof.
  intros Hc Hb Hm. exists (fill_progress m). split.
  - rewrite GetSyncStatus_eq, Hc. simpl. rewrite Hb, Hm. reflexivity.
  - pose proof (fill_progress_absent m) as (A1 & A2 & A3).
    repeat split; try assumption; intros v; apply fill_progress_present.
Qed.

(** C10: when the [eth_syncing] result parses as an object of string
    fields, a field that is present but whose hex string the decoder
    rejects does not make [GetSyncStatus] fail: the error is dropped,
    the field of the progress is 0, syncing is true and no error is
    returned. *)
Theorem GetSyncStatus_malformed_field (c : Client) (w w' : World)
  (result : RawMessage) (je : json_error) (m : gmap string string)
  (v : string) (e : error) :
  call World Post c "eth_syncing" [] w = ((result, None), w') ->
  Unmarshal_bool result = inr je ->
  Unmarshal_map result = inl m ->
  snd (parseHexUint64 v) = Some e ->
  exists p : SyncProgress,
    GetSyncStatus World Post c w = ((true, Some p, None), w') /\
    (m !! "startingBlock" = Some v -> StartingBlock p = 0) /\
    (m !! "currentBlock" = Some v -> CurrentBlock p = 0) /\
    (m !! "highestBlock" = Some v -> HighestBlock p = 0).
Proof.
  intros Hc Hb Hm He. exists (fill_progress m). split.
  - rewrite GetSyncStatus_eq, Hc. simpl. rewrite Hb, Hm. reflexivity.
  - pose proof (fill_progress_present m v) as (P1 & P2 & P3).
    rewrite (parseHexUint64_error_zero _ _ He) in P1, P2, P3.
    auto.
Qed.

(** *** The errors of [call] *)

(** C6 (amended): [call] fails with a TransportError exactly when the
    HTTP roundtrip fails, that is when the POST returns an error, the
    body cannot be read or the status is not 200 (a 2xx status other
    than 200 included: only a 200 response goes on to envelope parsing);
    and when the status is 200 and the body does not decode into the
    response envelope, [call] fails with a ProtocolError. *)
Theorem call_error_classes (c : Client) (method : string)
  (params : list json) (w : World) :
  let r := fst (Post (httpClient c) (endpoint c) "application/json"
                  (mkRequest "2.0" method params 1) w) in
  let err := snd (fst (call World Post c method params w)) in
  (fails_with TransportError err <-> roundtrip_failed r = true) /\
  (forall (respBody : body) (je : json_error),
      r = PostOk (mkHTTPResponse StatusOK (ReadOk respBody)) ->
      Unmarshal_body respBody = inr je ->
      err = Some (ErrUnmarshalResponse je) /\ fails_with ProtocolError err).
Proof.
  intros r err. subst err. rewrite call_eq. fold r. cbn [fst snd].
  split.
  - unfold fails_with, roundtrip_failed, call_outcome.
    destruct r as [cause|[code [cause|respBody]]]; cbn [Body StatusCode].
    + split; [reflexivity|]. intros _. eexists. split; reflexivity.
    + split; [reflexivity|]. intros _. eexists. split; reflexivity.
    + destruct (negb (code =? StatusOK)).
      * split; [reflexivity|]. intros _. eexists. split; reflexivity.
      * split; [|discriminate]. intros (e & He & Hc).
        destruct (Unmarshal_body respBody) as [rpcResp|je].
        -- destruct (Error rpcResp); cbn in He; inversion He; subst;
             discriminate.
        -- cbn in He. inversion He; subst. discriminate.
  - intros respBody je -> Hje. unfold call_outcome, fails_with.
    cbn [Body StatusCode]. change (negb (StatusOK =? StatusOK)) with false.
    cbn iota. rewrite Hje. split; [reflexivity|].
    eexists. split; reflexivity.
Qed.

(** C7: for every response envelope whose [error] is not null, [call]
    fails with an RPCError that carries the remote code and message,
    whether or not [result] is populated; the result is returned only
    when [error] is null. *)
Theorem call_rpc_error (c : Client) (method : string) (params : list json)
  (w w' : World) (respBody : body) (rpcResp : jsonRPCResponse) :
  Post (httpClient c) (endpoint c) "application/json"
    (mkRequest "2.0" method params 1) w
  = (PostOk (mkHTTPResponse StatusOK (ReadOk respBody)), w') ->
  Unmarshal_body respBody = inl rpcResp ->
  (forall e : jsonRPCError, Error rpcResp = Some e ->
     call World Post c method params w
     = ((None, Some (ErrRPC (Code e) (Message e))), w') /\
     classify (ErrRPC (Code e) (Message e)) = RPCError) /\
  (forall result : RawMessage,
     call World Post c method params w = ((result, None), w') ->
     Error rpcResp = None /\ result = Result rpcResp).
Proof.
  intros HP HU. rewrite call_eq, HP. cbn [fst snd].
  unfold call_outcome. cbn [Body StatusCode].
  change (negb (StatusOK =? StatusOK)) with false. cbn iota.
  rewrite HU. split.
  - intros e ->. split; reflexivity.
  - intros result H. destruct (Error rpcResp); inversion H. split; reflexivity.
Qed.

(** *** The two aggregators *)

(** [Collect] in terms of the three calls of its poll. *)
Lemma Collect_poll (c : GoatCollector) (w w' : World)
  (block chain : Z) (isSyncing : bool) (progress : option SyncProgress)
  (e1 e2 e3 : option error) :
  poll World Post (client c) w
  = (((block, e1), (chain, e2), (isSyncing, progress, e3)), w') ->
  Collect World Post c w
  = (mkCollected
       [mkMetric (blockHeight c) GaugeValue (f64_of_uint64 block);
        mkMetric (chainID c) GaugeValue (f64_of_uint64 chain);
        mkMetric (syncing c) GaugeValue
          (if isSyncing then f64_one else f64_zero);
        mkMetric (rpcUp c) GaugeValue
          (if all_ok e1 e2 e3 then f64_one else f64_zero)]
       (map (fun r => mkLog (fst r) (snd r))
          (perFieldErrors "error fetching block number: "
             "error fetching chain id: " "error fetching sync status: "
             e1 e2 e3)),
     w').
Proof.
  unfold poll, Collect, bind, ret.
  destruct (GetBlockNumber World Post (client c) w) as [[b1 x1] w1].
  destruct x1; cbv beta iota zeta;
    (destruct (GetChainID World Post (client c) w1) as [[b2 x2] w2]);
    destruct x2; cbv beta iota zeta;
    (destruct (GetSyncStatus World Post (client c) w2) as [[[b3 p3] x3] w3]);
    destruct x3; cbv beta iota zeta;
    intros H; inversion H; subst; clear H.
  all: destruct isSyncing; reflexivity.
Qed.

Lemma append_assoc (s1 s2 s3 : string) :
  ((s1 ++ s2) ++ s3 = s1 ++ (s2 ++ s3))%string.
Proof.
  induction s1 as [|ch r IH]; [reflexivity|].
  change (String ch ((r ++ s2) ++ s3) = String ch (r ++ (s2 ++ s3)))%string.
  f_equal. exact IH.
Qed.

(** [healthHandler] in terms of the three calls of its poll. *)
Lemma healthHandler_poll (cl : Client) (ep : string) (w w' : World)
  (block chain : Z) (isSyncing : bool) (progress : option SyncProgress)
  (e1 e2 e3 : option error) :
  poll World Post cl w
  = (((block, e1), (chain, e2), (isSyncing, progress, e3)), w') ->
  healthHandler World Post Now errText cl ep w
  = (mkWritten "application/json"
       (if all_ok e1 e2 e3 then StatusOK else StatusServiceUnavailable)
       (mkHealth (if all_ok e1 e2 e3 then "ok" else "degraded") ep
          block chain isSyncing (option_map shown progress) (Now w)
          (join_records "; "
             (map (fun r => fst r ++ errText (snd r))
                (perFieldErrors "block number: " "chain id: "
                   "sync status: " e1 e2 e3)))),
     w').
Proof.
  unfold poll, healthHandler, bind, ret.
  destruct (GetBlockNumber World Post cl w) as [[b1 x1] w1].
  destruct x1; cbv beta iota zeta;
    (destruct (GetChainID World Post cl w1) as [[b2 x2] w2]);
    destruct x2; cbv beta iota zeta;
    (destruct (GetSyncStatus World Post cl w2) as [[[b3 p3] x3] w3]);
    destruct x3; cbv beta iota zeta;
    intros H; inversion H; subst; clear H.
  all: destruct progress; simpl; rewrite ?append_assoc; reflexivity.
Qed.

(** C1: in the snapshot of every poll, by the collector and by the
    health handler, [rpcUp] is true (the gauge is 1.0, the status is
    "ok") if and only if all three calls succeeded, it is false (0.0,
    "degraded") as soon as one fails, and whatever the other calls did
    each field carries the value that its own call returned. *)
Theorem rpcUp_iff_all_calls_succeed (c : GoatCollector) (ep : string)
  (w w' : World) (block chain : Z) (isSyncing : bool)
  (progress : option SyncProgress) (e1 e2 e3 : option error) :
  poll World Post (client c) w
  = (((block, e1), (chain, e2), (isSyncing, progress, e3)), w') ->
  let up := if all_ok e1 e2 e3 then f64_one else f64_zero in
  let h := Payload (fst (healthHandler World Post Now errText (client c) ep w)) in
  (all_ok e1 e2 e3 = true <-> e1 = None /\ e2 = None /\ e3 = None) /\
  sent (fst (Collect World Post c w))
  = [mkMetric (blockHeight c) GaugeValue (f64_of_uint64 block);
     mkMetric (chainID c) GaugeValue (f64_of_uint64 chain);
     mkMetric (syncing c) GaugeValue (if isSyncing then f64_one else f64_zero);
     mkMetric (rpcUp c) GaugeValue up] /\
  (Status h = "ok" <-> all_ok e1 e2 e3 = true) /\
  (Status h = "degraded" <-> all_ok e1 e2 e3 = false) /\
  BlockHeight h = block /\ ChainID h = chain /\ Syncing h = isSyncing /\
  Sync_Progress h = option_map shown progress.
Proof.
  intros H up h. subst up h.
  rewrite (Collect_poll _ _ _ _ _ _ _ _ _ _ H).
  rewrite (healthHandler_poll _ ep _ _ _ _ _ _ _ _ _ H).
  cbn [fst sent Payload Status BlockHeight ChainID Syncing Sync_Progress].
  clear H.
  destruct e1, e2, e3; cbn; repeat split; intros; try reflexivity;
    try congruence; intuition congruence.
Qed.

(** The three operations of a poll, one after the other. *)
Lemma poll_inv (cl : Client) (w w' : World) r1 r2 r3 :
  poll World Post cl w = ((r1, r2, r3), w') ->
  exists w1 w2,
    GetBlockNumber World Post cl w = (r1, w1) /\
    GetChainID World Post cl w1 = (r2, w2) /\
    GetSyncStatus World Post cl w2 = (r3, w').
Proof.
  unfold poll, bind, ret.
  destruct (GetBlockNumber World Post cl w) as [x1 w1]. cbv beta iota.
  destruct (GetChainID World Post cl w1) as [x2 w2] eqn:E2. cbv beta iota.
  destruct (GetSyncStatus World Post cl w2) as [x3 w3] eqn:E3. cbv beta iota.
  intros H. inversion H; subst. exists w1, w2. auto.
Qed.

(** *** What a recording transport sees *)

Local Abbreviation Recorded := (World * list jsonRPCRequest)%type.

Lemma call_recording (c : Client) (method : string) (params : list json)
  (w : World) (tr : list jsonRPCRequest) :
  call Recorded (recording Post) c method params (w, tr)
  = (fst (call World Post c method params w),
     (snd (call World Post c method params w),
      (tr ++ [mkRequest "2.0" method params 1])%list)).
Proof.
  unfold call, bind, ret, recording. cbn [fst snd].
  destruct (Post _ _ _ _ w) as [r w1]. reflexivity.
Qed.

Lemma poll_recording (cl : Client) (w : World) (tr : list jsonRPCRequest) :
  poll Recorded (recording Post) cl (w, tr)
  = (fst (poll World Post cl w),
     (snd (poll World Post cl w),
      (tr ++ [request_of "eth_blockNumber"; request_of "eth_chainId";
              request_of "eth_syncing"])%list)).
Proof.
  unfold poll, GetBlockNumber, GetChainID, GetSyncStatus, bind, ret.
  rewrite call_recording.
  destruct (call World Post cl "eth_blockNumber" [] w) as [x1 w1].
  cbn [fst snd]. rewrite call_recording.
  destruct (call World Post cl "eth_chainId" [] w1) as [x2 w2].
  cbn [fst snd]. rewrite call_recording.
  destruct (call World Post cl "eth_syncing" [] w2) as [x3 w3].
  cbn [fst snd]. rewrite <- !app_assoc. reflexivity.
Qed.

End PollingProperties.

(** C3: both aggregators always send the three requests
    [eth_blockNumber], [eth_chainId], [eth_syncing], in that order and
    whatever each call returns; every field of the snapshot, in the gauges
    of the collector as in the health response, holds what its own call
    returned, whatever the other calls did; every failing call leaves the
    zero value in its field (0 for the block height and the chain id, false
    and no progress for the sync status) and adds one record, its label and
    its error, to the errors of the poll (the lines logged by the collector,
    the text joined with "; " by the health handler). In particular, when
    only the block-height call fails, [rpcUp] is false, the block height is
    0, the chain id and the syncing flag are those fetched, and there is
    exactly one error record. *)
Theorem aggregation_is_field_by_field (World : Type)
  (Post : http_Client -> string -> string -> jsonRPCRequest -> World -> post_result * World)
  (Now : World -> string) (errText : error -> string)
  (c : GoatCollector) (ep : string) (w w' : World)
  (block chain : Z) (isSyncing : bool) (progress : option SyncProgress)
  (e1 e2 e3 : option error) :
  poll World Post (client c) w
  = (((block, e1), (chain, e2), (isSyncing, progress, e3)), w') ->
  let three := [request_of "eth_blockNumber"; request_of "eth_chainId";
                request_of "eth_syncing"] in
  let m := fst (Collect World Post c w) in
  let h := Payload (fst (healthHandler World Post Now errText (client c) ep w)) in
  (* the requests sent, in order *)
  snd (snd (Collect _ (recording Post) c (w, []))) = three /\
  snd (snd (healthHandler _ (recording Post) (fun st => Now (fst st)) errText
              (client c) ep (w, []))) = three /\
  (* a failing call leaves the zero value *)
  (e1 <> None -> block = 0 /\ BlockHeight h = 0) /\
  (e2 <> None -> chain = 0 /\ ChainID h = 0) /\
  (e3 <> None -> isSyncing = false /\ progress = None /\
                 Syncing h = false /\ Sync_Progress h = None) /\
  (* one record for each failing call, in order *)
  logged m
  = map (fun r => mkLog (fst r) (snd r))
      (perFieldErrors "error fetching block number: "
         "error fetching chain id: " "error fetching sync status: " e1 e2 e3) /\
  ErrorText h
  = join_records "; "
      (map (fun r => (fst r ++ errText (snd r))%string)
         (perFieldErrors "block number: " "chain id: " "sync status: " e1 e2 e3)) /\
  (* only the block-height call fails *)
  (forall e : error, e1 = Some e -> e2 = None -> e3 = None ->
     last (sent m) = Some (mkMetric (rpcUp c) GaugeValue f64_zero) /\
     Status h = "degraded" /\
     BlockHeight h = 0 /\ ChainID h = chain /\ Syncing h = isSyncing /\
     logged m = [mkLog "error fetching block number: " e] /\
     ErrorText h = ("block number: " ++ errText e)%string) /\
  (* every field holds what its own call returned *)
  sent m
  = [mkMetric (blockHeight c) GaugeValue (f64_of_uint64 block);
     mkMetric (chainID c) GaugeValue (f64_of_uint64 chain);
     mkMetric (syncing c) GaugeValue (if isSyncing then f64_one else f64_zero);
     mkMetric (rpcUp c) GaugeValue
       (if all_ok e1 e2 e3 then f64_one else f64_zero)] /\
  BlockHeight h = block /\ ChainID h = chain /\ Syncing h = isSyncing /\
  Sync_Progress h = option_map shown progress /\
  Status h = (if all_ok e1 e2 e3 then "ok" else "degraded") /\
  (* the gauges of the failing calls *)
  (e1 <> None ->
   sent m !! 0%nat = Some (mkMetric (blockHeight c) GaugeValue (f64_of_uint64 0))) /\
  (e2 <> None ->
   sent m !! 1%nat = Some (mkMetric (chainID c) GaugeValue (f64_of_uint64 0))) /\
  (e3 <> None ->
   sent m !! 2%nat = Some (mkMetric (syncing c) GaugeValue f64_zero)) /\
  (e1 <> None \/ e2 <> None \/ e3 <> None ->
   sent m !! 3%nat = Some (mkMetric (rpcUp c) GaugeValue f64_zero)) /\
  (* only the block-height call fails: the gauges *)
  (forall e : error, e1 = Some e -> e2 = None -> e3 = None ->
     sent m
     = [mkMetric (blockHeight c) GaugeValue (f64_of_uint64 0);
        mkMetric (chainID c) GaugeValue (f64_of_uint64 chain);
        mkMetric (syncing c) GaugeValue (if isSyncing then f64_one else f64_zero);
        mkMetric (rpcUp c) GaugeValue f64_zero]).
Proof.
  intros H three m h.
  assert (HR : poll _ (recording Post) (client c) (w, [])
               = (((block, e1), (chain, e2), (isSyncing, progress, e3)),
                  (w', three))).
  { rewrite poll_recording, H. reflexivity. }
  destruct (poll_inv _ _ _ _ _ _ _ _ H) as (w1 & w2 & G1 & G2 & G3).
  assert (Z1 : e1 <> None -> block = 0).
  { destruct e1 as [e|]; [intros _|congruence].
    pose proof (GetBlockNumber_error_zero World Post (client c) w e) as Z.
    rewrite G1 in Z. apply Z. reflexivity. }
  assert (Z2 : e2 <> None -> chain = 0).
  { destruct e2 as [e|]; [intros _|congruence].
    pose proof (GetChainID_error_zero World Post (client c) w1 e) as Z.
    rewrite G2 in Z. apply Z. reflexivity. }
  assert (Z3 : e3 <> None -> isSyncing = false /\ progress = None).
  { destruct e3 as [e|]; [intros _|congruence].
    pose proof (GetSyncStatus_error_zero World Post (client c) w2 e) as Z.
    rewrite G3 in Z. cbn [fst snd] in Z.
    specialize (Z eq_refl). inversion Z. split; reflexivity. }
  subst m h.
  rewrite (Collect_poll _ _ _ _ _ _ _ _ _ _ _ _ HR).
  rewrite (healthHandler_poll _ _ (fun st => Now (fst st)) errText
             _ ep _ _ _ _ _ _ _ _ _ HR).
  rewrite (Collect_poll _ _ _ _ _ _ _ _ _ _ _ _ H).
  rewrite (healthHandler_poll _ _ Now errText _ ep _ _ _ _ _ _ _ _ _ H).
  cbn [fst snd sent logged Payload Status BlockHeight ChainID Syncing
       Sync_Progress ErrorText].
  split; [reflexivity|]. split; [reflexivity|].
  split; [intros N; split; apply Z1; exact N|].
  split; [intros N; split; apply Z2; exact N|].
  split.
  { intros N. destruct (Z3 N) as [-> ->]. repeat split. }
  split; [reflexivity|]. split; [reflexivity|].
  split.
  { intros e -> -> ->. rewrite (Z1 ltac:(discriminate)). repeat split. }
  split; [reflexivity|].
  split; [reflexivity|]. split; [reflexivity|]. split; [reflexivity|].
  split; [reflexivity|]. split; [reflexivity|].
  split; [intros N; rewrite (Z1 N); reflexivity|].
  split; [intros N; rewrite (Z2 N); reflexivity|].
  split; [intros N; destruct (Z3 N) as [-> _]; reflexivity|].
  split.
  { intros N. destruct e1, e2, e3; try reflexivity.
    destruct N as [N|[N|N]]; congruence. }
  intros e -> -> ->. rewrite (Z1 ltac:(discriminate)). reflexivity.
Qed.

(** ** The properties on a fake transport *)

Lemma parse_examples :
  parseHexUint64 "0x9c2e40" = (10235456, None) /\
  parseHexUint64 "0X9C2E40" = (10235456, None) /\
  parseHexUint64 "929" = (2345, None) /\
  parseHexUint64 "" = (0, Some (ErrInvalidHex "")) /\
  parseHexUint64 "0x" = (0, Some (ErrInvalidHex "0x")).
Proof. repeat split. Qed.

(** The [eth_syncing] results of section 8 of the specification. *)
Lemma GetSyncStatus_examples :
  let run r := fst (GetSyncStatus _ scripted example_client [reply_json (envelope r)]) in
  run (JBool false) = (false, None, None) /\
  run (JBool true) = (false, None, None) /\
  run (JObject [("startingBlock", JString "0x1"); ("currentBlock", JString "0x5");
                ("highestBlock", JString "0xa")])
  = (true, Some (mkSyncProgress 1 5 10), None) /\
  run (JObject [("currentBlock", JString "0x5")])
  = (true, Some (mkSyncProgress 0 5 0), None) /\
  run (JNumber (NInt 7))
  = (false, None, Some (ErrUnmarshalSyncProgress UnmarshalTypeError)).
Proof. vm_compute. repeat split. Qed.

Lemma GetSyncStatus_boolean_witness :
  call _ scripted example_client "eth_syncing" [] [reply_json (envelope (JBool true))]
  = ((Some (JBool true), None), []) /\
  Unmarshal_bool (Some (JBool true)) = inl true /\
  GetSyncStatus _ scripted example_client [reply_json (envelope (JBool true))]
  = ((false, None, None), []).
Proof.
  split; [reflexivity|]. split; [reflexivity|].
  exact (GetSyncStatus_boolean _ scripted example_client
           [reply_json (envelope (JBool true))] [] (Some (JBool true)) true
           eq_refl eq_refl).
Defined.

Lemma GetSyncStatus_object_witness :
  let result := JObject [("currentBlock", JString "0x5")] in
  let m : gmap string string := <["currentBlock" := "0x5"]> ∅ in
  call _ scripted example_client "eth_syncing" [] [reply_json (envelope result)]
  = ((Some result, None), []) /\
  Unmarshal_bool (Some result) = inr UnmarshalTypeError /\
  Unmarshal_map (Some result) = inl m /\
  m !! "startingBlock" = None /\
  m !! "currentBlock" = Some "0x5" /\
  exists p : SyncProgress,
    GetSyncStatus _ scripted example_client [reply_json (envelope result)]
    = ((true, Some p, None), []) /\
    StartingBlock p = 0 /\ CurrentBlock p = 5.
Proof.
  intros result m.
  assert (L1 : m !! "startingBlock" = None) by (vm_compute; reflexivity).
  assert (L2 : m !! "currentBlock" = Some "0x5") by (vm_compute; reflexivity).
  split; [reflexivity|]. split; [reflexivity|]. split; [reflexivity|].
  split; [exact L1|]. split; [exact L2|].
  destruct (GetSyncStatus_object _ scripted example_client
              [reply_json (envelope result)] [] (Some result)
              UnmarshalTypeError m eq_refl eq_refl eq_refl)
    as (p & Hp & H1 & _ & _ & _ & H2 & _).
  exists p. split; [exact Hp|]. split; [exact (H1 L1) | exact (H2 _ L2)].
Defined.

Lemma GetSyncStatus_malformed_field_witness :
  let result := JObject [("startingBlock", JString "0xzz");
                         ("currentBlock", JString "0x5")] in
  let m : gmap string string :=
    <["currentBlock" := "0x5"]> (<["startingBlock" := "0xzz"]> ∅) in
  call _ scripted example_client "eth_syncing" [] [reply_json (envelope result)]
  = ((Some result, None), []) /\
  Unmarshal_bool (Some result) = inr UnmarshalTypeError /\
  Unmarshal_map (Some result) = inl m /\
  snd (parseHexUint64 "0xzz") = Some (ErrInvalidHex "0xzz") /\
  m !! "startingBlock" = Some "0xzz" /\
  exists p : SyncProgress,
    GetSyncStatus _ scripted example_client [reply_json (envelope result)]
    = ((true, Some p, None), []) /\
    StartingBlock p = 0.
Proof.
  intros result m.
  split; [reflexivity|]. split; [reflexivity|]. split; [reflexivity|].
  split; [reflexivity|]. split; [vm_compute; reflexivity|].
  destruct (GetSyncStatus_malformed_field _ scripted example_client
              [reply_json (envelope result)] [] (Some result)
              UnmarshalTypeError m "0xzz" (ErrInvalidHex "0xzz")
              eq_refl eq_refl eq_refl eq_refl)
    as (p & Hp & H1 & _).
  exists p. split; [exact Hp|]. apply H1. vm_compute. reflexivity.
Defined.

(** C6, as the specification states it, fails: a response with status 202,
    a 2xx status, whose body is a well-formed envelope does not go on to
    envelope parsing; [call] fails with the TransportError of a bad
    status. *)
Lemma call_2xx_counterexample :
  let respBody := JSONText (envelope (JString "0x1")) in
  (200 <= 202 < 300) /\
  Unmarshal_body respBody
  = inl (mkResponse "2.0" (Some (JString "0x1")) None 1) /\
  call _ scripted example_client "eth_blockNumber" []
    [reply_status 202 (envelope (JString "0x1"))]
  = ((None, Some (ErrHTTPStatus 202 respBody)), []) /\
  classify (ErrHTTPStatus 202 respBody) = TransportError.
Proof. repeat split; intro; discriminate. Qed.

(** An object without any of the members of an envelope still decodes:
    [call] returns a nil result and no error, and the caller then fails to
    decode that result. *)
Lemma call_empty_object :
  Unmarshal_body (JSONText (JObject [])) = inl zero_jsonRPCResponse /\
  call _ scripted example_client "eth_blockNumber" [] [reply_json (JObject [])]
  = ((None, None), []) /\
  GetBlockNumber _ scripted example_client [reply_json (JObject [])]
  = ((0, Some (ErrUnmarshalBlockNumber SyntaxError)), []).
Proof. repeat split. Qed.

Lemma call_error_classes_witness :
  let html := PostOk (mkHTTPResponse StatusOK (ReadOk (NotJSON "<html>"))) in
  (* a refused connection *)
  fails_with TransportError
    (snd (fst (call _ scripted example_client "eth_chainId" [] []))) /\
  (* a 200 response whose body is not JSON *)
  Unmarshal_body (NotJSON "<html>") = inr SyntaxError /\
  snd (fst (call _ scripted example_client "eth_chainId" [] [html]))
  = Some (ErrUnmarshalResponse SyntaxError).
Proof.
  intros html. split; [|split; [reflexivity|]].
  - exact (proj2 (proj1 (call_error_classes _ scripted example_client
                           "eth_chainId" [] [])) eq_refl).
  - exact (proj1 (proj2 (call_error_classes _ scripted example_client
                           "eth_chainId" [] [html])
                    (NotJSON "<html>") SyntaxError eq_refl eq_refl)).
Defined.

Lemma call_rpc_error_witness :
  let rpcResp := mkResponse "2.0" (Some (JString "0x10"))
                   (Some (mkRPCError (-32000) "header not found")) 1 in
  scripted (httpClient example_client) (endpoint example_client)
    "application/json" (mkRequest "2.0" "eth_blockNumber" [] 1)
    [reply_json envelope_both]
  = (PostOk (mkHTTPResponse StatusOK (ReadOk (JSONText envelope_both))), []) /\
  Unmarshal_body (JSONText envelope_both) = inl rpcResp /\
  call _ scripted example_client "eth_blockNumber" [] [reply_json envelope_both]
  = ((None, Some (ErrRPC (-32000) "header not found")), []).
Proof.
  intros rpcResp. split; [reflexivity|]. split; [reflexivity|].
  exact (proj1 (proj1 (call_rpc_error _ scripted example_client
                         "eth_blockNumber" [] [reply_json envelope_both] []
                         (JSONText envelope_both) rpcResp eq_refl eq_refl)
                  (mkRPCError (-32000) "header not found") eq_refl)).
Defined.

(** The poll of the node whose first answer is an HTTP 500. *)
Lemma poll_block_fails :
  poll _ scripted (client example_collector) node_block_fails
  = (((0, Some (ErrHTTPStatus 500 (JSONText (JString "internal error")))),
      (2345, None), (false, None, None)), []).
Proof. reflexivity. Qed.

Lemma rpcUp_iff_all_calls_succeed_witness :
  let h := Payload (fst (healthHandler _ scripted example_now class_text
                           (client example_collector) example_endpoint
                           node_block_fails)) in
  poll _ scripted (client example_collector) node_block_fails
  = (((0, Some (ErrHTTPStatus 500 (JSONText (JString "internal error")))),
      (2345, None), (false, None, None)), []) /\
  sent (fst (Collect _ scripted example_collector node_block_fails))
  = [mkMetric "goat_block_height" GaugeValue (f64_of_uint64 0);
     mkMetric "goat_chain_id" GaugeValue (f64_of_uint64 2345);
     mkMetric "goat_syncing" GaugeValue f64_zero;
     mkMetric "goat_rpc_up" GaugeValue f64_zero] /\
  ChainID h = 2345.
Proof.
  intros h. split; [reflexivity|].
  destruct (rpcUp_iff_all_calls_succeed _ scripted example_now class_text
              example_collector example_endpoint node_block_fails []
              0 2345 false None
              (Some (ErrHTTPStatus 500 (JSONText (JString "internal error"))))
              None None eq_refl)
    as (_ & Hs & _ & _ & _ & Hc & _).
  split; [exact Hs | exact Hc].
Defined.

Lemma aggregation_is_field_by_field_witness :
  let e := ErrHTTPStatus 500 (JSONText (JString "internal error")) in
  let m := fst (Collect _ scripted example_collector node_block_fails) in
  let h := Payload (fst (healthHandler _ scripted example_now class_text
                           (client example_collector) example_endpoint
                           node_block_fails)) in
  poll _ scripted (client example_collector) node_block_fails
  = (((0, Some e), (2345, None), (false, None, None)), []) /\
  snd (snd (Collect _ (recording scripted) example_collector
              (node_block_fails, [])))
  = [request_of "eth_blockNumber"; request_of "eth_chainId";
     request_of "eth_syncing"] /\
  logged m = [mkLog "error fetching block number: " e] /\
  ErrorText h = "block number: TransportError" /\
  BlockHeight h = 0 /\ ChainID h = 2345 /\
  sent m
  = [mkMetric "goat_block_height" GaugeValue (f64_of_uint64 0);
     mkMetric "goat_chain_id" GaugeValue (f64_of_uint64 2345);
     mkMetric "goat_syncing" GaugeValue f64_zero;
     mkMetric "goat_rpc_up" GaugeValue f64_zero].
Proof.
  intros e m h. split; [reflexivity|].
  destruct (aggregation_is_field_by_field _ scripted example_now class_text
              example_collector example_endpoint node_block_fails []
              0 2345 false None (Some e) None None eq_refl)
    as (Ho & _ & _ & _ & _ & _ & _ & Hb & _ & _ & _ & _ & _ & _ & _ & _ & _
        & _ & Hg).
  destruct (Hb e eq_refl eq_refl eq_refl) as (_ & _ & Hz & Hc & _ & Hl & Ht).
  split; [exact Ho|]. split; [exact Hl|]. split; [exact Ht|].
  split; [exact Hz|]. split; [exact Hc|].
  exact (Hg e eq_refl eq_refl eq_refl).
Defined.

(** Section 8 of the specification: all three calls succeed. *)
Lemma poll_synced :
  fst (Collect _ scripted example_collector node_synced)
  = mkCollected
      [mkMetric "goat_block_height" GaugeValue (f64_of_uint64 10235456);
       mkMetric "goat_chain_id" GaugeValue (f64_of_uint64 2345);
       mkMetric "goat_syncing" GaugeValue f64_zero;
       mkMetric "goat_rpc_up" GaugeValue f64_one] [] /\
  fst (healthHandler _ scripted example_now class_text example_client
         example_endpoint node_synced)
  = mkWritten "application/json" 200
      (mkHealth "ok" example_endpoint 10235456 2345 false None
         "2024-01-01T00:00:00Z" "").
Proof. split; reflexivity. Qed.

(** Section 8 of the specification: HTTP 500 for every method. *)
Lemma poll_all_500 :
  let down := reply_status 500 (JString "internal error") in
  let out := fst (Collect _ scripted example_collector [down; down; down]) in
  last (sent out) = Some (mkMetric "goat_rpc_up" GaugeValue f64_zero) /\
  map (fun l => classify (log_err l)) (logged out)
  = [TransportError; TransportError; TransportError] /\
  ErrorText (Payload (fst (healthHandler _ scripted example_now class_text
                             example_client example_endpoint [down; down; down])))
  = "block number: TransportError; chain id: TransportError; sync status: TransportError".
Proof. repeat split. Qed.

(** * Further properties of the code *)

(** ** [stripHexPrefix] and [parseHexUint64] *)

(** [stripHexPrefix] removes exactly one leading [0x] or [0X], and returns
    every other string, the strings shorter than two bytes included,
    unchanged. *)
Theorem stripHexPrefix_cases (s : string) :
  (exists r, (s = "0x" ++ r \/ s = "0X" ++ r)%string /\ stripHexPrefix s = r) \/
  ((forall r, s <> ("0x" ++ r)%string /\ s <> ("0X" ++ r)%string) /\
   stripHexPrefix s = s).
Proof.
  destruct s as [|a [|b r]].
  - right. split; [intros r; split; discriminate | reflexivity].
  - right. split; [intros r; split; discriminate | reflexivity].
  - destruct (Ascii.eqb_spec a "0") as [->|Ha].
    + destruct (Ascii.eqb_spec b "x") as [->|Hx].
      * left. exists r. split; [left; reflexivity | apply stripHexPrefix_0x].
      * destruct (Ascii.eqb_spec b "X") as [->|HX].
        -- left. exists r. split; [right; reflexivity | apply stripHexPrefix_0X].
        -- right. split.
           ++ intros r'. split; intros E; inversion E; congruence.
           ++ unfold stripHexPrefix. cbn [String.length Nat.leb andb substring].
              rewrite substring_0_0. cbn [String.eqb].
              apply Ascii.eqb_neq in Hx, HX. rewrite Hx, HX. reflexivity.
    + right. split.
      * intros r'. split; intros E; inversion E; congruence.
      * unfold stripHexPrefix. cbn [String.length Nat.leb andb substring].
        rewrite substring_0_0. cbn [String.eqb].
        apply Ascii.eqb_neq in Ha. rewrite Ha. reflexivity.
Qed.

(** [parseHexUint64], completely: with the prefix stripped and one leading
    sign set aside, a non-empty string of hex digits of value [v] decodes
    to [v mod 2^64] with no error; anything else (no digit at all, as in
    the empty string or a bare [0x], or a character that is not a hex
    digit) gives 0 and the error that carries the input as it was given. *)
Theorem parseHexUint64_spec (hex : string) :
  match hex_value (unsigned_part (stripHexPrefix hex)) with
  | Some v => parseHexUint64 hex = (v mod 2 ^ 64, None)
  | None => parseHexUint64 hex = (0, Some (ErrInvalidHex hex))
  end.
Proof.
  destruct (hex_value (unsigned_part (stripHexPrefix hex))) as [v|] eqn:E.
  - apply parseHexUint64_value; exact E.
  - unfold parseHexUint64. rewrite (SetString_non_hex _ E). reflexivity.
Qed.

(** Whatever the input, the value returned by [parseHexUint64] is a
    [uint64], and it is 0 whenever an error is returned. *)
Theorem parseHexUint64_result_range (hex : string) :
  is_uint64 (fst (parseHexUint64 hex)) /\
  (snd (parseHexUint64 hex) = None \/ fst (parseHexUint64 hex) = 0).
Proof.
  split; [apply parseHexUint64_uint64|].
  destruct (snd (parseHexUint64 hex)) as [e|] eqn:E; [right|left; reflexivity].
  rewrite (parseHexUint64_error_zero _ _ E). reflexivity.
Qed.

(** Lowering the ASCII letters changes neither the digits nor the signs
    that [big.Int.SetString] reads. *)
Lemma lower_digitVal (ch : ascii) :
  big.digitVal 16 (lower ch) = big.digitVal 16 ch.
Proof.
  destruct ch as [b0 b1 b2 b3 b4 b5 b6 b7].
  destruct b0, b1, b2, b3, b4, b5, b6, b7; vm_compute; reflexivity.
Qed.

Lemma lower_eqb (ch : ascii) :
  Ascii.eqb (lower ch) "-" = Ascii.eqb ch "-" /\
  Ascii.eqb (lower ch) "+" = Ascii.eqb ch "+" /\
  Ascii.eqb (lower ch) "0" = Ascii.eqb ch "0" /\
  Ascii.eqb (lower ch) "x" = Ascii.eqb ch "x" || Ascii.eqb ch "X" /\
  Ascii.eqb (lower ch) "X" = false.
Proof.
  destruct ch as [b0 b1 b2 b3 b4 b5 b6 b7].
  destruct b0, b1, b2, b3, b4, b5, b6, b7; vm_compute; repeat split.
Qed.

Lemma foldName_length (s : string) :
  String.length (foldName s) = String.length s.
Proof. induction s as [|ch r IH]; simpl; [|rewrite IH]; reflexivity. Qed.

Lemma scanDigits_foldName (s : string) :
  forall (z : Z) (c : nat),
    big.scanDigits 16 (foldName s) z c
    = (fst (fst (big.scanDigits 16 s z c)), snd (fst (big.scanDigits 16 s z c)),
       foldName (snd (big.scanDigits 16 s z c))).
Proof.
  induction s as [|ch r IH]; intros z c; [reflexivity|].
  cbn [foldName big.scanDigits]. rewrite lower_digitVal.
  destruct (16 <=? big.digitVal 16 ch); [reflexivity | apply IH].
Qed.

Lemma SetString_foldName (s : string) :
  big.SetString (foldName s) 16 = big.SetString s 16.
Proof.
  unfold big.SetString.
  assert (Hs : big.scanSign (foldName s)
               = match big.scanSign s with
                 | Some (sg, rest) => Some (sg, foldName rest)
                 | None => None
                 end).
  { destruct s as [|ch r]; [reflexivity|].
    cbn [foldName big.scanSign].
    destruct (lower_eqb ch) as (-> & -> & _).
    destruct (Ascii.eqb ch "-"); [reflexivity|].
    destruct (Ascii.eqb ch "+"); reflexivity. }
  rewrite Hs. destruct (big.scanSign s) as [[sg rest]|]; [|reflexivity].
  rewrite scanDigits_foldName.
  destruct (big.scanDigits 16 rest 0 0) as [[v n] tl]. cbn [fst snd].
  destruct n; [reflexivity|]. destruct tl; reflexivity.
Qed.

Lemma stripHexPrefix_foldName (s : string) :
  stripHexPrefix (foldName s) = foldName (stripHexPrefix s).
Proof.
  destruct s as [|a [|b r]]; try reflexivity.
  unfold stripHexPrefix.
  cbn [foldName String.length Nat.leb andb substring].
  rewrite !substring_0_0. cbn [String.eqb].
  destruct (lower_eqb a) as (_ & _ & -> & _).
  destruct (lower_eqb b) as (_ & _ & _ & -> & ->).
  rewrite foldName_length.
  destruct (Ascii.eqb a "0"); [|reflexivity].
  destruct (Ascii.eqb b "x"), (Ascii.eqb b "X"); cbn [orb andb];
    try reflexivity;
    cbn [Nat.sub]; rewrite Nat.sub_0_r;
    rewrite <- (foldName_length r) at 1; rewrite !substring_all; reflexivity.
Qed.

(** The decoder does not look at the case of the prefix or of the digits:
    the input with its ASCII letters lowered decodes to the same value, and
    fails exactly when the input fails. *)
Theorem parseHexUint64_case_insensitive (hex : string) :
  fst (parseHexUint64 (foldName hex)) = fst (parseHexUint64 hex) /\
  (snd (parseHexUint64 (foldName hex)) = None <-> snd (parseHexUint64 hex) = None).
Proof.
  unfold parseHexUint64.
  rewrite stripHexPrefix_foldName, SetString_foldName.
  destruct (big.SetString (stripHexPrefix hex) 16); cbn [fst snd].
  - split; [reflexivity | tauto].
  - split; [reflexivity|]. split; discriminate.
Qed.

(** A leading sign is read and then dropped: the digits decode to the same
    value with [-] or [+] before them, with or without the prefix. *)
Theorem parseHexUint64_ignores_sign (s : string) (v : Z) :
  hex_value s = Some v ->
  parseHexUint64 ("-" ++ s) = (v mod 2 ^ 64, None) /\
  parseHexUint64 ("+" ++ s) = (v mod 2 ^ 64, None) /\
  parseHexUint64 ("0x-" ++ s) = (v mod 2 ^ 64, None) /\
  parseHexUint64 ("0x+" ++ s) = (v mod 2 ^ 64, None).
Proof.
  intros H.
  assert (S1 : stripHexPrefix ("-" ++ s) = ("-" ++ s)%string).
  { destruct s as [|b r]; [reflexivity|]. unfold stripHexPrefix.
    simpl. rewrite ?substring_0_0. reflexivity. }
  assert (S2 : stripHexPrefix ("+" ++ s) = ("+" ++ s)%string).
  { destruct s as [|b r]; [reflexivity|]. unfold stripHexPrefix.
    simpl. rewrite ?substring_0_0. reflexivity. }
  repeat split; apply parseHexUint64_value.
  - rewrite S1. exact H.
  - rewrite S2. exact H.
  - change ("0x-" ++ s)%string with ("0x" ++ ("-" ++ s))%string.
    rewrite stripHexPrefix_0x. exact H.
  - change ("0x+" ++ s)%string with ("0x" ++ ("+" ++ s))%string.
    rewrite stripHexPrefix_0x. exact H.
Qed.

Lemma parseHexUint64_ignores_sign_witness :
  hex_value "ff" = Some 255 /\ parseHexUint64 "-ff" = (255, None).
Proof.
  split; [reflexivity|].
  exact (proj1 (parseHexUint64_ignores_sign "ff" 255 eq_refl)).
Defined.

(** The prefix is recognised at the very start of the input only, and only
    once: after a sign or after a first prefix, [0x] makes the input
    invalid. *)
Theorem parseHexUint64_prefix_only_first (s : string) :
  parseHexUint64 ("-0x" ++ s) = (0, Some (ErrInvalidHex ("-0x" ++ s))) /\
  parseHexUint64 ("+0x" ++ s) = (0, Some (ErrInvalidHex ("+0x" ++ s))) /\
  parseHexUint64 ("0x0x" ++ s) = (0, Some (ErrInvalidHex ("0x0x" ++ s))) /\
  parseHexUint64 ("0X0X" ++ s) = (0, Some (ErrInvalidHex ("0X0X" ++ s))).
Proof.
  repeat split; apply parseHexUint64_non_hex; reflexivity.
Qed.

(** ** Decoding the envelope *)

(** The members of the envelope have different names: a key that matches
    [id] matches no other field. *)
Lemma is_field_id (key : string) :
  is_field "id" key = true ->
  is_field "jsonrpc" key = false /\ is_field "result" key = false /\
  is_field "error" key = false.
Proof.
  unfold is_field. intros H.
  assert (F : foldKey key = "id").
  { apply orb_prop in H as [H|H]; apply String.eqb_eq in H;
      [subst; reflexivity | exact H]. }
  assert (N : forall name, foldKey name <> "id" ->
                String.eqb key name || String.eqb (foldKey key) (foldKey name)
                = false).
  { intros name Hn. apply orb_false_intro; apply String.eqb_neq.
    - intros ->. congruence.
    - congruence. }
  repeat split; apply N; discriminate.
Qed.

(** Once the decoder has met a type error, it keeps it to the end. *)
Lemma response_error_sticks (members : list (string * json)) :
  forall (v : jsonRPCResponse) (e : json_error),
    snd (fold_left member_jsonRPCResponse members (v, Some e)) = Some e.
Proof.
  induction members as [|[key j] rest IH]; intros v e; [reflexivity|].
  cbn [fold_left].
  assert (S : exists v', member_jsonRPCResponse (v, Some e) (key, j) = (v', Some e)).
  { unfold member_jsonRPCResponse.
    destruct (is_field "jsonrpc" key).
    { destruct (store_string (JSONRPC v) j); eauto. }
    destruct (is_field "result" key); [eauto|].
    destruct (is_field "error" key).
    { destruct (store_jsonRPCError (Error v) j) as [p [e'|]]; eauto. }
    destruct (is_field "id" key); [|eauto].
    destruct (store_int (ID v) j); eauto. }
  destruct S as [v' ->]. apply IH.
Qed.

Lemma store_int_fits (old : Z) (j : json) :
  fits_int j = false -> store_int old j = inr UnmarshalTypeError.
Proof.
  destruct j as [| |[z|l]| | |]; cbn; try reflexivity; try discriminate.
  intros ->. reflexivity.
Qed.

Lemma response_mistyped_id (members : list (string * json))
  (key : string) (j : json) :
  In (key, j) members -> is_field "id" key = true -> fits_int j = false ->
  forall acc, exists e,
    snd (fold_left member_jsonRPCResponse members acc) = Some e.
Proof.
  intros HIn Hk Hj.
  induction members as [|kv rest IH]; [destruct HIn|].
  intros [v e0]. cbn [fold_left]. destruct HIn as [->|HIn].
  - assert (S : exists e, member_jsonRPCResponse (v, e0) (key, j) = (v, Some e)).
    { unfold member_jsonRPCResponse.
      destruct (is_field_id key Hk) as (-> & -> & ->). rewrite Hk.
      rewrite (store_int_fits _ _ Hj). destruct e0; cbn; eauto. }
    destruct S as [e ->]. exists e. apply response_error_sticks.
  - apply IH; exact HIn.
Qed.

Lemma map_error_sticks (members : list (string * json)) :
  forall (m : gmap string string) (e : json_error),
    snd (fold_left member_map members (m, Some e)) = Some e.
Proof.
  induction members as [|[key j] rest IH]; intros m e; [reflexivity|].
  cbn [fold_left]. unfold member_map at 2.
  destruct (store_string "" j); cbn [keep_first]; apply IH.
Qed.

Lemma map_mistyped_member (members : list (string * json))
  (key : string) (j : json) :
  In (key, j) members -> is_text j = false ->
  forall m, snd (fold_left member_map members (m, None)) = Some UnmarshalTypeError.
Proof.
  intros HIn Hj.
  induction members as [|[k' j'] rest IH]; [destruct HIn|].
  intros m. cbn [fold_left]. destruct HIn as [E|HIn].
  - inversion E; subst. unfold member_map at 2.
    assert (S : store_string "" j = inr UnmarshalTypeError)
      by (destruct j; try reflexivity; discriminate).
    rewrite S. cbn [keep_first]. apply map_error_sticks.
  - unfold member_map at 2.
    destruct (store_string "" j') as [s|e] eqn:S; cbn [keep_first].
    + apply IH; exact HIn.
    + assert (e = UnmarshalTypeError) as ->
        by (destruct j'; cbn in S; congruence).
      apply map_error_sticks.
Qed.

(** An object whose members are all strings (or null) decodes into the map
    that gives each key the text of its last member. *)
Lemma map_all_text (members : list (string * json)) :
  (forall k j, In (k, j) members -> is_text j = true) ->
  forall m0 : gmap string string,
  exists m : gmap string string,
    fold_left member_map members (m0, None) = (m, None) /\
    forall key, m !! key
      = fold_left
          (fun acc kv =>
             if String.eqb (fst kv) key then Some (text_of (snd kv)) else acc)
          members (m0 !! key).
Proof.
  induction members as [|[k' j'] rest IH]; intros Hall m0.
  - exists m0. split; [reflexivity|]. intros key. reflexivity.
  - assert (Hj : is_text j' = true) by (apply (Hall k'); left; reflexivity).
    assert (S : store_string "" j' = inl (text_of j'))
      by (destruct j'; try reflexivity; discriminate).
    cbn [fold_left]. unfold member_map at 2. rewrite S.
    destruct (IH (fun k j H => Hall k j (or_intror H)) (<[k' := text_of j']> m0))
      as (m & Hm & Hl).
    exists m. split; [exact Hm|]. intros key. rewrite Hl. cbn [fst snd].
    f_equal. destruct (String.eqb_spec k' key) as [->|Hne].
    + apply lookup_insert_eq.
    + apply lookup_insert_ne. exact Hne.
Qed.

(** ** The call and the operations, further *)

Section MoreProperties.

Variable World : Type.
Variable Post :
  http_Client -> string -> string -> jsonRPCRequest -> World -> post_result * World.
Variable Now : World -> string.
Variable errText : error -> string.

(** [call] returns a result or an error, never both, and none of its
    errors is a DecodeError. *)
Theorem call_result_or_error (c : Client) (method : string)
  (params : list json) (w : World) :
  let out := fst (call World Post c method params w) in
  match snd out with
  | Some e => fst out = None /\ classify e <> DecodeError
  | None => roundtrip_failed
              (fst (Post (httpClient c) (endpoint c) "application/json"
                      (mkRequest "2.0" method params 1) w)) = false
  end.
Proof.
  intros out. subst out. rewrite call_eq. cbn [fst snd].
  destruct (fst (Post _ _ _ _ w)) as [cause|[code [cause|respBody]]];
    unfold call_outcome, roundtrip_failed; cbn [Body StatusCode fst snd];
    try (split; [reflexivity|discriminate]).
  destruct (negb (code =? StatusOK)); cbn [fst snd];
    [split; [reflexivity|discriminate]|].
  destruct (Unmarshal_body respBody) as [rpcResp|je]; cbn [fst snd];
    [|split; [reflexivity|discriminate]].
  destruct (Error rpcResp); cbn [fst snd];
    [split; [reflexivity|discriminate] | reflexivity].
Qed.

(** [call] checks neither the version nor the id of the envelope: whatever
    the string under [jsonrpc] and whatever the integer under [id], the
    result is returned. *)
Theorem call_ignores_version_and_id (c : Client) (method : string)
  (params : list json) (w w' : World) (version : string) (id : Z) (r : json) :
  Post (httpClient c) (endpoint c) "application/json"
    (mkRequest "2.0" method params 1) w
  = (reply_json (JObject [("jsonrpc", JString version);
                          ("id", JNumber (NInt id)); ("result", r)]), w') ->
  MinInt <= id <= MaxInt ->
  call World Post c method params w = ((Some r, None), w').
Proof.
  intros HP Hid. rewrite call_eq, HP. cbn [fst snd]. f_equal.
  unfold call_outcome, reply_json, reply_status, Unmarshal_body.
  cbn [Body StatusCode tree]. change (negb (StatusOK =? StatusOK)) with false.
  cbn iota. unfold Unmarshal_jsonRPCResponse. cbn [fold_left].
  unfold member_jsonRPCResponse.
  change (is_field "jsonrpc" "jsonrpc") with true.
  change (is_field "jsonrpc" "id") with false.
  change (is_field "result" "id") with false.
  change (is_field "error" "id") with false.
  change (is_field "id" "id") with true.
  change (is_field "jsonrpc" "result") with false.
  change (is_field "result" "result") with true.
  cbn [store_string store_int zero_jsonRPCResponse JSONRPC Result Error ID].
  destruct (Z.leb_spec MinInt id); [|lia].
  destruct (Z.leb_spec id MaxInt); [|lia].
  reflexivity.
Qed.

(** An envelope whose [id] is neither an integer that fits a Go [int] nor
    null (a string id, a fractional one) does not decode: [call] fails
    with a ProtocolError, whatever the other members are. *)
Theorem call_rejects_mistyped_id (c : Client) (method : string)
  (params : list json) (w w' : World) (members : list (string * json))
  (key : string) (j : json) :
  Post (httpClient c) (endpoint c) "application/json"
    (mkRequest "2.0" method params 1) w
  = (reply_json (JObject members), w') ->
  In (key, j) members -> is_field "id" key = true -> fits_int j = false ->
  exists je : json_error,
    call World Post c method params w
    = ((None, Some (ErrUnmarshalResponse je)), w') /\
    classify (ErrUnmarshalResponse je) = ProtocolError.
Proof.
  intros HP HIn Hk Hj. rewrite call_eq, HP. cbn [fst snd].
  unfold call_outcome, reply_json, reply_status, Unmarshal_body.
  cbn [Body StatusCode tree]. change (negb (StatusOK =? StatusOK)) with false.
  cbn iota. unfold Unmarshal_jsonRPCResponse.
  destruct (response_mistyped_id members key j HIn Hk Hj
              (zero_jsonRPCResponse, None)) as [e He].
  destruct (fold_left member_jsonRPCResponse members (zero_jsonRPCResponse, None))
    as [v [e'|]]; cbn in He; [|discriminate].
  exists e'. split; reflexivity.
Qed.

(** The three operations return an error of [call] as it is, not wrapped,
    together with their zero values. *)
Theorem operations_surface_call_errors (c : Client) (w : World) (e : error) :
  (snd (fst (call World Post c "eth_blockNumber" [] w)) = Some e ->
   fst (GetBlockNumber World Post c w) = (0, Some e)) /\
  (snd (fst (call World Post c "eth_chainId" [] w)) = Some e ->
   fst (GetChainID World Post c w) = (0, Some e)) /\
  (snd (fst (call World Post c "eth_syncing" [] w)) = Some e ->
   fst (GetSyncStatus World Post c w) = (false, None, Some e)).
Proof.
  rewrite GetBlockNumber_eq, GetChainID_eq, GetSyncStatus_eq. cbn [fst].
  repeat split; intros H.
  - destruct (fst (call World Post c "eth_blockNumber" [] w)) as [r o].
    cbn in H. subst o. reflexivity.
  - destruct (fst (call World Post c "eth_chainId" [] w)) as [r o].
    cbn in H. subst o. reflexivity.
  - destruct (fst (call World Post c "eth_syncing" [] w)) as [r o].
    cbn in H. subst o. reflexivity.
Qed.

Lemma decode_quantity_ok wrap (r : RawMessage * option error) (n : Z) :
  decode_quantity wrap r = (n, None) <->
  exists hex, r = (Some (JString hex), None) /\ parseHexUint64 hex = (n, None).
Proof.
  unfold decode_quantity. destruct r as [result [err|]].
  - split; [discriminate|]. intros (hex & E & _). discriminate.
  - destruct result as [j|]; cbn [Unmarshal_string].
    + destruct j; cbn [store_string];
        try (split; [discriminate | intros (hex & E & _); discriminate]).
      * split; [intros H; eauto | intros (hex & E & H)].
        inversion E; subst. exact H.
    + split; [discriminate | intros (hex & E & _); discriminate].
Qed.

(** [GetBlockNumber] and [GetChainID] succeed exactly when [call] returns
    a result that is a JSON string which the hex decoder accepts; the
    value is then the decoded one. A missing result, [null], a number or
    any other JSON value is an error. *)
Theorem quantity_succeeds_iff (c : Client) (w : World) (n : Z) :
  (fst (GetBlockNumber World Post c w) = (n, None) <->
   exists hex,
     fst (call World Post c "eth_blockNumber" [] w) = (Some (JString hex), None) /\
     parseHexUint64 hex = (n, None)) /\
  (fst (GetChainID World Post c w) = (n, None) <->
   exists hex,
     fst (call World Post c "eth_chainId" [] w) = (Some (JString hex), None) /\
     parseHexUint64 hex = (n, None)).
Proof.
  rewrite GetBlockNumber_eq, GetChainID_eq. cbn [fst].
  split; apply decode_quantity_ok.
Qed.

Lemma fill_progress_range (m : gmap string string) :
  is_uint64 (StartingBlock (fill_progress m)) /\
  is_uint64 (CurrentBlock (fill_progress m)) /\
  is_uint64 (HighestBlock (fill_progress m)).
Proof.
  assert (Z0 : is_uint64 0) by (split; intro; discriminate).
  unfold fill_progress.
  destruct (m !! "startingBlock"), (m !! "currentBlock"), (m !! "highestBlock");
    cbn; repeat split; try apply parseHexUint64_uint64; apply Z0.
Qed.

Lemma decode_sync_coherent (r : RawMessage * option error) :
  (fst (fst (decode_sync r)) = true <-> snd (fst (decode_sync r)) <> None) /\
  (snd (decode_sync r) = None \/ fst (decode_sync r) = (false, None)) /\
  (forall p, snd (fst (decode_sync r)) = Some p ->
     is_uint64 (StartingBlock p) /\ is_uint64 (CurrentBlock p) /\
     is_uint64 (HighestBlock p)).
Proof.
  unfold decode_sync. destruct r as [result [err|]]; cbn [fst snd].
  - split; [split; [discriminate|congruence]|].
    split; [right; reflexivity | discriminate].
  - destruct (Unmarshal_bool result); cbn [fst snd].
    + split; [split; [discriminate|congruence]|].
      split; [left; reflexivity | discriminate].
    + destruct (Unmarshal_map result) as [m|e]; cbn [fst snd].
      * split; [split; [discriminate|reflexivity]|].
        split; [left; reflexivity|].
        intros p H. inversion H; subst. apply fill_progress_range.
      * split; [split; [discriminate|congruence]|].
        split; [right; reflexivity | discriminate].
Qed.

(** Whatever the node answers, the result of [GetSyncStatus] is coherent:
    syncing is true exactly when a progress is returned, an error comes
    with syncing = false and no progress, and the fields of a progress are
    [uint64] values. *)
Theorem GetSyncStatus_coherent (c : Client) (w : World) :
  let out := fst (GetSyncStatus World Post c w) in
  (fst (fst out) = true <-> snd (fst out) <> None) /\
  (snd out = None \/ fst out = (false, None)) /\
  (forall p, snd (fst out) = Some p ->
     is_uint64 (StartingBlock p) /\ is_uint64 (CurrentBlock p) /\
     is_uint64 (HighestBlock p)).
Proof.
  intros out. subst out. rewrite GetSyncStatus_eq. cbn [fst].
  apply decode_sync_coherent.
Qed.

End MoreProperties.

(** ** [GetSyncStatus] and the aggregators, further *)

Section SyncAndAggregators.

Variable World : Type.
Variable Post :
  http_Client -> string -> string -> jsonRPCRequest -> World -> post_result * World.
Variable Now : World -> string.
Variable errText : error -> string.

(** When the [eth_syncing] result parses neither as a boolean nor as an
    object (a number, a string, an array, or no result at all),
    [GetSyncStatus] fails with a DecodeError and returns syncing = false
    and no progress. *)
Theorem GetSyncStatus_neither (c : Client) (w w' : World)
  (result : RawMessage) (je : json_error) :
  call World Post c "eth_syncing" [] w = ((result, None), w') ->
  Unmarshal_bool result = inr je ->
  (forall members, result <> Some (JObject members)) ->
  exists e : error,
    GetSyncStatus World Post c w = ((false, None, Some e), w') /\
    classify e = DecodeError.
Proof.
  intros Hc Hb Ho. rewrite GetSyncStatus_eq, Hc. cbn [fst snd].
  unfold decode_sync. rewrite Hb.
  destruct result as [j|]; cbn [Unmarshal_map].
  - destruct j; try (eexists; split; reflexivity).
    + discriminate Hb.
    + exfalso. apply (Ho members). reflexivity.
  - eexists; split; reflexivity.
Qed.

(** An object with one member that is neither a string nor null makes
    [GetSyncStatus] fail, whatever the key of that member, the three keys
    it reads or any other. *)
Theorem GetSyncStatus_mistyped_member (c : Client) (w w' : World)
  (members : list (string * json)) (key : string) (j : json) :
  call World Post c "eth_syncing" [] w = ((Some (JObject members), None), w') ->
  In (key, j) members -> is_text j = false ->
  GetSyncStatus World Post c w
  = ((false, None, Some (ErrUnmarshalSyncProgress UnmarshalTypeError)), w').
Proof.
  intros Hc HIn Hj. rewrite GetSyncStatus_eq, Hc. cbn [fst snd].
  unfold decode_sync. cbn [Unmarshal_bool store_bool Unmarshal_map].
  pose proof (map_mistyped_member members key j HIn Hj ∅) as E.
  destruct (fold_left member_map members (∅, None)) as [m o].
  cbn in E. subst o. reflexivity.
Qed.

(** An object whose members are all strings (or null) gives the progress
    whose three fields are read from the last member with the key
    [startingBlock], [currentBlock], [highestBlock]: 0 when there is none
    or when the hex decoder rejects its text, the decoded value otherwise.
    Members with other keys are not looked at. *)
Theorem GetSyncStatus_last_member_wins (c : Client) (w w' : World)
  (members : list (string * json)) :
  call World Post c "eth_syncing" [] w = ((Some (JObject members), None), w') ->
  (forall k j, In (k, j) members -> is_text j = true) ->
  GetSyncStatus World Post c w
  = ((true,
      Some (mkSyncProgress (field_of (last_value "startingBlock" members))
              (field_of (last_value "currentBlock" members))
              (field_of (last_value "highestBlock" members))),
      None), w').
Proof.
  intros Hc Hall. rewrite GetSyncStatus_eq, Hc. cbn [fst snd].
  unfold decode_sync. cbn [Unmarshal_bool store_bool Unmarshal_map].
  destruct (map_all_text members Hall ∅) as (m & -> & Hl).
  unfold fill_progress, last_value, field_of.
  rewrite <- !Hl.
  destruct (m !! "startingBlock"), (m !! "currentBlock"), (m !! "highestBlock");
    reflexivity.
Qed.

(** [Collect] sends exactly the metrics that [Describe] announces, in the
    same order and all of them gauges, whether the calls succeed or fail. *)
Theorem Collect_sends_what_Describe_announces (c : GoatCollector) (w : World) :
  map fqName (sent (fst (Collect World Post c w))) = Describe c /\
  map valueType (sent (fst (Collect World Post c w)))
  = [GaugeValue; GaugeValue; GaugeValue; GaugeValue].
Proof.
  destruct (poll World Post (client c) w) as [[[[b e1] [ch e2]] [[s p] e3]] w'] eqn:H.
  rewrite (Collect_poll _ _ _ _ _ _ _ _ _ _ _ _ H). split; reflexivity.
Qed.

Lemma join_records_nonempty (x : string) (l : list string) :
  x <> "" -> join_records "; " (x :: l) <> "".
Proof.
  intros Hx. destruct x as [|a r]; [congruence|].
  destruct l; cbn; discriminate.
Qed.

(** The health handler answers 200 with an empty error text when the three
    calls succeed, and 503 with a non-empty error text as soon as one
    fails; its content type is always application/json. *)
Theorem healthHandler_status_code (cl : Client) (ep : string) (w w' : World)
  (block chain : Z) (isSyncing : bool) (progress : option SyncProgress)
  (e1 e2 e3 : option error) :
  poll World Post cl w
  = (((block, e1), (chain, e2), (isSyncing, progress, e3)), w') ->
  let out := fst (healthHandler World Post Now errText cl ep w) in
  ContentType out = "application/json" /\
  (all_ok e1 e2 e3 = true ->
   WrittenStatus out = 200 /\ ErrorText (Payload out) = "") /\
  (all_ok e1 e2 e3 = false ->
   WrittenStatus out = 503 /\ ErrorText (Payload out) <> "").
Proof.
  intros H out. subst out.
  rewrite (healthHandler_poll _ _ Now errText cl ep _ _ _ _ _ _ _ _ _ H).
  cbn [fst ContentType WrittenStatus Payload ErrorText].
  split; [reflexivity|]. split; intros A; rewrite A.
  - destruct e1, e2, e3; try discriminate. split; reflexivity.
  - split; [reflexivity|].
    destruct e1, e2, e3; try discriminate; cbn [perFieldErrors map app];
      apply join_records_nonempty; discriminate.
Qed.

(** In the health response the sync progress is present exactly when
    syncing is true. *)
Theorem healthHandler_progress_iff_syncing (cl : Client) (ep : string)
  (w : World) :
  let h := Payload (fst (healthHandler World Post Now errText cl ep w)) in
  Syncing h = true <-> Sync_Progress h <> None.
Proof.
  intros h. subst h.
  destruct (poll World Post cl w) as [[[[b e1] [ch e2]] [[s p] e3]] w'] eqn:H.
  rewrite (healthHandler_poll _ _ Now errText cl ep _ _ _ _ _ _ _ _ _ H).
  cbn [fst Payload Syncing Sync_Progress].
  destruct (poll_inv _ _ _ _ _ _ _ _ H) as (w1 & w2 & _ & _ & G3).
  pose proof (decode_sync_coherent
                (fst (call World Post cl "eth_syncing" [] w2))) as (C & _ & _).
  rewrite GetSyncStatus_eq in G3. apply (f_equal fst) in G3.
  cbn [fst] in G3. rewrite G3 in C. cbn [fst snd] in C.
  destruct p; cbn [option_map]; split; intros X;
    try congruence; try (apply C; congruence).
  apply C in X. congruence.
Qed.

(** On the same world the collector and the health handler show the same
    snapshot: the same block height, chain id and syncing flag, [rpc_up]
    at 1.0 exactly when the status is "ok"; and they leave the world in
    the same state. *)
Theorem Collect_and_healthHandler_agree (c : GoatCollector) (ep : string)
  (w : World) :
  let m := Collect World Post c w in
  let h := healthHandler World Post Now errText (client c) ep w in
  snd m = snd h /\
  exists up : float64,
    sent (fst m)
    = [mkMetric (blockHeight c) GaugeValue
         (f64_of_uint64 (BlockHeight (Payload (fst h))));
       mkMetric (chainID c) GaugeValue
         (f64_of_uint64 (ChainID (Payload (fst h))));
       mkMetric (syncing c) GaugeValue
         (if Syncing (Payload (fst h)) then f64_one else f64_zero);
       mkMetric (rpcUp c) GaugeValue up] /\
    (up = f64_one <-> Status (Payload (fst h)) = "ok") /\
    (up = f64_zero <-> Status (Payload (fst h)) = "degraded").
Proof.
  intros m h. subst m h.
  destruct (poll World Post (client c) w)
    as [[[[b e1] [ch e2]] [[s p] e3]] w'] eqn:H.
  rewrite (Collect_poll _ _ _ _ _ _ _ _ _ _ _ _ H).
  rewrite (healthHandler_poll _ _ Now errText _ ep _ _ _ _ _ _ _ _ _ H).
  cbn [fst snd sent Payload BlockHeight ChainID Syncing Status].
  split; [reflexivity|].
  exists (if all_ok e1 e2 e3 then f64_one else f64_zero).
  split; [reflexivity|].
  destruct (all_ok e1 e2 e3); repeat split; intros; congruence.
Qed.

End SyncAndAggregators.

(** ** The further properties on a fake transport *)

Lemma call_ignores_version_and_id_witness :
  let reply := reply_json (JObject [("jsonrpc", JString "1.0");
                                    ("id", JNumber (NInt 42));
                                    ("result", JString "0x10")]) in
  (MinInt <= 42 <= MaxInt) /\
  call _ scripted example_client "eth_blockNumber" [] [reply]
  = ((Some (JString "0x10"), None), []).
Proof.
  intros reply.
  assert (R : MinInt <= 42 <= MaxInt) by (split; intro; discriminate).
  split; [exact R|].
  exact (call_ignores_version_and_id _ scripted example_client
           "eth_blockNumber" [] [reply] [] "1.0" 42 (JString "0x10")
           eq_refl R).
Defined.

Lemma call_rejects_mistyped_id_witness :
  let members := [("jsonrpc", JString "2.0"); ("id", JString "1");
                  ("result", JString "0x10")] in
  In ("id", JString "1") members /\
  is_field "id" "id" = true /\ fits_int (JString "1") = false /\
  exists je : json_error,
    call _ scripted example_client "eth_blockNumber" []
      [reply_json (JObject members)]
    = ((None, Some (ErrUnmarshalResponse je)), []) /\
    classify (ErrUnmarshalResponse je) = ProtocolError.
Proof.
  intros members.
  assert (I : In ("id", JString "1") members) by (right; left; reflexivity).
  split; [exact I|]. split; [reflexivity|]. split; [reflexivity|].
  exact (call_rejects_mistyped_id _ scripted example_client "eth_blockNumber"
           [] [reply_json (JObject members)] [] members "id" (JString "1")
           eq_refl I eq_refl eq_refl).
Defined.

Lemma operations_surface_call_errors_witness :
  let e := ErrRPC (-32000) "header not found" in
  snd (fst (call _ scripted example_client "eth_chainId" []
              [reply_json envelope_both])) = Some e /\
  fst (GetChainID _ scripted example_client [reply_json envelope_both])
  = (0, Some e).
Proof.
  intros e. split; [reflexivity|].
  exact (proj1 (proj2 (operations_surface_call_errors _ scripted example_client
                         [reply_json envelope_both] e)) eq_refl).
Defined.

Lemma GetSyncStatus_neither_witness :
  let world := [reply_json (envelope (JNumber (NInt 7)))] in
  call _ scripted example_client "eth_syncing" [] world
  = ((Some (JNumber (NInt 7)), None), []) /\
  Unmarshal_bool (Some (JNumber (NInt 7))) = inr UnmarshalTypeError /\
  exists e : error,
    GetSyncStatus _ scripted example_client world = ((false, None, Some e), []) /\
    classify e = DecodeError.
Proof.
  intros world. split; [reflexivity|]. split; [reflexivity|].
  refine (GetSyncStatus_neither _ scripted example_client world []
            (Some (JNumber (NInt 7))) UnmarshalTypeError eq_refl eq_refl _).
  intros members; discriminate.
Defined.

Lemma GetSyncStatus_mistyped_member_witness :
  let members := [("currentBlock", JString "0x5");
                  ("healedBytecodes", JNumber (NInt 12))] in
  let world := [reply_json (envelope (JObject members))] in
  call _ scripted example_client "eth_syncing" [] world
  = ((Some (JObject members), None), []) /\
  In ("healedBytecodes", JNumber (NInt 12)) members /\
  is_text (JNumber (NInt 12)) = false /\
  GetSyncStatus _ scripted example_client world
  = ((false, None, Some (ErrUnmarshalSyncProgress UnmarshalTypeError)), []).
Proof.
  intros members world.
  assert (I : In ("healedBytecodes", JNumber (NInt 12)) members)
    by (right; left; reflexivity).
  split; [reflexivity|]. split; [exact I|]. split; [reflexivity|].
  exact (GetSyncStatus_mistyped_member _ scripted example_client world []
           members "healedBytecodes" (JNumber (NInt 12)) eq_refl I eq_refl).
Defined.

Lemma GetSyncStatus_last_member_wins_witness :
  let members := [("currentBlock", JString "0x5");
                  ("knownStates", JString "0x10");
                  ("currentBlock", JString "0x7")] in
  let world := [reply_json (envelope (JObject members))] in
  call _ scripted example_client "eth_syncing" [] world
  = ((Some (JObject members), None), []) /\
  (forall k j, In (k, j) members -> is_text j = true) /\
  GetSyncStatus _ scripted example_client world
  = ((true, Some (mkSyncProgress 0 7 0), None), []).
Proof.
  intros members world.
  assert (A : forall k j, In (k, j) members -> is_text j = true).
  { intros k j [E|[E|[E|[]]]]; inversion E; reflexivity. }
  split; [reflexivity|]. split; [exact A|].
  exact (GetSyncStatus_last_member_wins _ scripted example_client world []
           members eq_refl A).
Defined.

Lemma healthHandler_status_code_witness :
  let out := fst (healthHandler _ scripted example_now class_text
                    example_client example_endpoint node_block_fails) in
  poll _ scripted example_client node_block_fails
  = (((0, Some (ErrHTTPStatus 500 (JSONText (JString "internal error")))),
      (2345, None), (false, None, None)), []) /\
  WrittenStatus out = 503 /\ ErrorText (Payload out) <> "".
Proof.
  intros out. split; [reflexivity|].
  exact (proj2 (proj2 (healthHandler_status_code _ scripted example_now
                         class_text example_client example_endpoint
                         node_block_fails [] 0 2345 false None
                         (Some (ErrHTTPStatus 500 (JSONText (JString "internal error"))))
                         None None eq_refl)) eq_refl).
Defined.

(** Keys are matched under case folding: [RESULT], and [result] spelled
    with the long s (the bytes 197 191 in UTF-8), both set the result; a
    key with another rune outside ASCII sets nothing. *)
Lemma is_field_folding :
  let long_s := String "r" (String "e" (String "197" (String "191" "ult"))) in
  let other := String "r" (String "e" (String "195" (String "159" "ult"))) in
  is_field "result" "RESULT" = true /\
  is_field "result" long_s = true /\
  is_field "result" other = false /\
  call _ scripted example_client "eth_blockNumber" []
    [reply_json (JObject [(long_s, JString "0x10")])]
  = ((Some (JString "0x10"), None), []) /\
  call _ scripted example_client "eth_blockNumber" []
    [reply_json (JObject [(other, JString "0x10")])]
  = ((None, None), []).
Proof. repeat split. Qed.
